(** * Biologic CAM binary converter: feature extraction and batch loop

    A shallow embedding of the Python sources [features.py],
    [cam_biologic_data_import.py], [extract_electrochemical_features.py]
    and the file loop of [main.py], followed by the properties of the
    specification that were checked against it.

    Conventions of the embedding.
    - A NumPy [float64] is an exact rational extended with the two
      infinities and NaN.  The rounding error of binary64 arithmetic and
      the sign of zero are not modelled; everything else (propagation of
      NaN, division by zero giving an infinity, [max] skipping NaN) is.
      The properties below are stated with the expressions of the code,
      operation for operation, and use no identity of exact arithmetic
      that binary64 lacks; where the order of the operations decides a
      digit, the computation is repeated in [Binary64], on the floats of
      the machine.
    - The one Python [float] the extraction meets besides the mass is the
      [np.nan] that [max()] returns for a Series without entries; unlike
      a NumPy scalar it raises [ZeroDivisionError] when divided by a
      Python zero.
    - A pandas DataFrame in "cloud format" is the list of its rows, a
      Series the list of its values, a boolean mask a list of booleans.
    - A Python dict of features is a [gmap] from strings to [float64].
    - Python exceptions are the [Raise] results of the [outcome] type;
      [SystemExit], which is not an [Exception], has a result of its own. *)

From Stdlib Require Import Ascii String QArith Qcanon Qround PrimFloat.
From stdpp Require Import gmap strings list pretty sorting.

#[local] Set Warnings "-inexact-float".

Local Open Scope Z_scope.

(* ================================================================== *)
(** ** Numbers *)

Module Float.

Inductive float64 : Type :=
  | Fin (q : Qc)
  | Inf (negative : bool)
  | NaN.

#[global] Instance float64_eq_dec : EqDecision float64.
Proof. solve_decision. Defined.

Definition of_Z (z : Z) : float64 := Fin (Qc_of_Z z).

(** [decimal m k] is the literal [m / 10^k], e.g. [decimal 95 1] is 9.5. *)
Definition pow10 (k : nat) : Qc := Qc_of_Z (10 ^ Z.of_nat k).
Definition decimal (m : Z) (k : nat) : float64 := Fin (Qc_of_Z m / pow10 k)%Qc.

Definition negative (q : Qc) : bool := bool_decide (q < 0)%Qc.
Definition is_zero (q : Qc) : bool := bool_decide (q = 0%Qc).

Definition isnan (x : float64) : bool :=
  match x with NaN => true | _ => false end.

(** [x == 0]. *)
Definition zero (x : float64) : bool :=
  match x with Fin q => is_zero q | _ => false end.

Definition mul (x y : float64) : float64 :=
  match x, y with
  | NaN, _ | _, NaN => NaN
  | Fin a, Fin b => Fin (a * b)%Qc
  | Fin a, Inf s | Inf s, Fin a =>
      if is_zero a then NaN else Inf (xorb s (negative a))
  | Inf s, Inf t => Inf (xorb s t)
  end.

(** NumPy scalars do not raise on a zero divisor: the quotient is an
    infinity, or NaN for 0/0. *)
Definition div (x y : float64) : float64 :=
  match x, y with
  | NaN, _ | _, NaN => NaN
  | Fin a, Fin b =>
      if is_zero b then (if is_zero a then NaN else Inf (negative a))
      else Fin (a / b)%Qc
  | Fin _, Inf _ => Fin 0%Qc
  | Inf s, Fin b => Inf (xorb s (negative b))
  | Inf _, Inf _ => NaN
  end.

Definition sub (x y : float64) : float64 :=
  match x, y with
  | NaN, _ | _, NaN => NaN
  | Fin a, Fin b => Fin (a - b)%Qc
  | Fin _, Inf t => Inf (negb t)
  | Inf s, Fin _ => Inf s
  | Inf s, Inf t => if Bool.eqb s t then NaN else Inf s
  end.

(** Nearest integer, ties to the even one. *)
Definition rint (q : Qc) : Z :=
  let f := Qfloor q in
  match (q - Qc_of_Z f ?= Q2Qc (1 # 2))%Qc with
  | Lt => f
  | Gt => f + 1
  | Eq => if Z.even f then f else f + 1
  end.

(** [round(x, ndigits)] on a float64: scale, round half to even, scale
    back; infinities and NaN are returned unchanged. *)
Definition round (x : float64) (ndigits : nat) : float64 :=
  match x with
  | Fin q => Fin (Qc_of_Z (rint (q * pow10 ndigits)) / pow10 ndigits)%Qc
  | _ => x
  end.

(** The order of the numbers; every comparison with NaN is false. *)
Definition le (x y : float64) : bool :=
  match x, y with
  | NaN, _ | _, NaN => false
  | Inf true, _ => true
  | _, Inf false => true
  | Fin a, Fin b => bool_decide (a ≤ b)%Qc
  | _, _ => false
  end.

Definition maximum (x y : float64) : float64 := if le x y then y else x.

End Float.
Export Float.

(* ================================================================== *)
(** ** Python results *)

Inductive exn : Type :=
  | KeyError (key : string)
  | IndexError
  | TypeError
  | ValueError
  | NameError
  | EOFError
  | ZeroDivisionError.

Inductive outcome (A : Type) : Type :=
  | Ok (a : A)
  | Raise (e : exn)
  | SystemExit (code : Z).
Arguments Ok {A} a.
Arguments Raise {A} e.
Arguments SystemExit {A} code.

#[global] Instance exn_eq_dec : EqDecision exn.
Proof. solve_decision. Defined.
#[global] Instance outcome_eq_dec `{EqDecision A} : EqDecision (outcome A).
Proof. solve_decision. Defined.

#[global] Instance outcome_ret : MRet outcome := λ A a, Ok a.
#[global] Instance outcome_bind : MBind outcome := λ A B f m,
  match m with
  | Ok a => f a
  | Raise e => Raise e
  | SystemExit c => SystemExit c
  end.

(** [d[key]] on a dict. *)
Definition getitem {V} (d : gmap string V) (key : string) : outcome V :=
  match d !! key with
  | Some v => Ok v
  | None => Raise (KeyError key)
  end.

(** [x / y] where [y] is a Python [float].  When [x] is a NumPy scalar
    the quotient is NumPy's, which never raises; when [x] is a Python
    [float] as well, Python raises [ZeroDivisionError] on a zero [y]. *)
Definition truediv (python_float : bool) (x y : float64) : outcome float64 :=
  if python_float && zero y then Raise ZeroDivisionError else Ok (div x y).

(* ================================================================== *)
(** ** The cloud-format table and the pandas operations used on it *)

Record row : Type := Row {
  step_type : string;
  step_number : Z;
  cycle : Z;
  voltage : float64;
  step_amp_hours : float64;
}.

#[global] Instance row_eq_dec : EqDecision row.
Proof. solve_decision. Defined.

Abbreviation DataFrame := (list row) (only parsing).

Module Pandas.

(** [np.logical_and(x1, x2, out)].  A NumPy binary ufunc takes two
    operands; a third positional argument is [out], the array that
    receives the result and is returned: what it held before is
    overwritten and plays no part in the result. *)
Definition logical_and (x1 x2 : list bool) (out : option (list bool))
  : list bool :=
  zip_with andb x1 x2.

(** [df[idx]] for a boolean mask [idx]. *)
Fixpoint mask {A} (idx : list bool) (df : list A) : list A :=
  match idx, df with
  | b :: idx', r :: df' => if b then r :: mask idx' df' else mask idx' df'
  | _, _ => []
  end.

(** [s.iloc[-1]]. *)
Definition iloc_last {A} (s : list A) : outcome A :=
  match last s with
  | Some v => Ok v
  | None => Raise IndexError
  end.

(** [s.max()]: NaN entries are skipped; NaN when nothing is left. *)
Definition series_max (s : list float64) : float64 :=
  match filter (λ v, isnan v = false) s with
  | [] => NaN
  | v :: vs => foldl maximum v vs
  end.

(** The type of what [s.max()] returns: a NumPy scalar for a Series with
    entries, the Python [float] [np.nan] for a Series without any. *)
Definition max_is_python_float (s : list float64) : bool :=
  bool_decide (s = []).

(** [df.groupby(["cycle"]).agg(discharge_step_amp_hours=
    ("step_amp_hours", "max")).reset_index()]: one row per cycle present,
    in increasing order of the cycle, holding the maximum of the group. *)
Definition groupby_cycle_max (df : DataFrame) : list (Z * float64) :=
  (λ c, (c, series_max
              (step_amp_hours <$> filter (λ r, cycle r = c) df)))
    <$> merge_sort Z.le (remove_dups (cycle <$> df)).

End Pandas.
Export Pandas.

(* ================================================================== *)
(** ** features.py *)

Module Features.

Definition key_ocv : string := "Open Circuit Potential (V)".
Definition key_charge : string := "Initial Charge Capacity (mAh)".
Definition key_specific_charge : string :=
  "Initial Specific Charge Capacity (mAh/g) ".
Definition key_discharge : string := "Initial Discharge Capacity (mAh)".
Definition key_specific_discharge : string :=
  "Initial Specific Discharge capacity (mAh/g)".
Definition key_efficiency : string := "Initial Coulombic Efficiency (%)".
Definition key_retention (cycle : Z) : string :=
  "Retention Cycle " +:+ pretty cycle +:+ " (%)".
Definition key_difference (cycle : Z) : string :=
  "Retention Difference for " +:+ pretty cycle +:+ " (%)".

Definition step_type_is (name : string) (df : DataFrame) : list bool :=
  (λ r, bool_decide (step_type r = name)) <$> df.
Definition step_number_is (n : Z) (df : DataFrame) : list bool :=
  (λ r, bool_decide (step_number r = n)) <$> df.
Definition cycle_is (n : Z) (df : DataFrame) : list bool :=
  (λ r, bool_decide (cycle r = n)) <$> df.

Definition extract_ocv (df : DataFrame) (features : gmap string float64)
  : outcome (gmap string float64) :=
  let idx := logical_and (step_type_is "REST" df) (step_number_is 0 df)
               (Some (cycle_is 1 df)) in
  v ← iloc_last (voltage <$> mask idx df);
  let open_circuit_potential := round v 3 in
  mret (<[key_ocv := open_circuit_potential]> features).

(** The mass is the Python [float] read from the file name; the
    product by [1000] has the type of the maximum. *)
Definition extract_initial_charge_capacity (df : DataFrame)
    (features : gmap string float64) (mass : float64)
  : outcome (gmap string float64) :=
  let idx := logical_and (step_type_is "CHARGE" df) (cycle_is 1 df) None in
  let selected := step_amp_hours <$> mask idx df in
  let initial_charge_capacity := series_max selected in
  initial_specific_charge_capacity ←
    truediv (max_is_python_float selected)
      (mul initial_charge_capacity (of_Z 1000)) mass;
  mret (<[key_specific_charge := round initial_specific_charge_capacity 1]>
          (<[key_charge := round (mul initial_charge_capacity (of_Z 1000)) 3]>
             features)).

Definition extract_initial_discharge_capacity (df : DataFrame)
    (features : gmap string float64) (mass : float64)
  : outcome (gmap string float64) :=
  let idx := logical_and (step_type_is "DISCHARGE" df) (cycle_is 1 df) None in
  let selected := step_amp_hours <$> mask idx df in
  let initial_discharge_capacity := series_max selected in
  initial_specific_discharge_capacity ←
    truediv (max_is_python_float selected)
      (mul initial_discharge_capacity (of_Z 1000)) mass;
  mret (<[key_specific_discharge :=
            round initial_specific_discharge_capacity 1]>
          (<[key_discharge :=
               round (mul initial_discharge_capacity (of_Z 1000)) 3]>
             features)).

Definition extract_initial_coulombic_efficiency (df : DataFrame)
    (features : gmap string float64) : outcome (gmap string float64) :=
  initial_discharge_capacity ← getitem features key_discharge;
  initial_charge_capacity ← getitem features key_charge;
  let initial_coulombic_efficiency :=
    round (mul (div initial_discharge_capacity initial_charge_capacity)
             (of_Z 100)) 1 in
  mret (<[key_efficiency := initial_coulombic_efficiency]> features).

(** The table [df_discharge] both cycle extractions start from. *)
Definition discharge_by_cycle (df : DataFrame) : list (Z * float64) :=
  let df_discharge :=
    groupby_cycle_max (mask (step_type_is "DISCHARGE" df) df) in
  mask ((λ g, bool_decide (1 < g.1)) <$> df_discharge) df_discharge.

(** [df_discharge[df_discharge["cycle"] == cycle]
      ["discharge_step_amp_hours"].max()]. *)
Definition cycle_capacity (df_discharge : list (Z * float64)) (cycle : Z)
  : float64 :=
  let idx_discharge := (λ g, bool_decide (g.1 = cycle)) <$> df_discharge in
  series_max (snd <$> mask idx_discharge df_discharge).

Definition extract_capacities_for_cycles (df : DataFrame)
    (features : gmap string float64) (cycles : list Z)
  : outcome (gmap string float64) :=
  let df_discharge := discharge_by_cycle df in
  initial_discharge_capacity ← getitem features key_discharge;
  mret (foldl (λ features cycle,
                 let discharge_capacity := cycle_capacity df_discharge cycle in
                 <[key_retention cycle :=
                     round (div (mul discharge_capacity (of_Z 100))
                              (div initial_discharge_capacity (of_Z 1000))) 1]>
                   features)
          features cycles).

(** One turn of the loop of [extract_discharge_capacity_difference]; the
    state is the dict and [prev_discharge_capacity]. *)
Definition difference_step (df_discharge : list (Z * float64))
    (st : gmap string float64 * float64) (cycle : Z)
  : gmap string float64 * float64 :=
  let '(features, prev_discharge_capacity) := st in
  let discharge_capacity := cycle_capacity df_discharge cycle in
  let discharge_capacity_difference :=
    div (sub discharge_capacity prev_discharge_capacity)
      (div prev_discharge_capacity (of_Z 100)) in
  (<[key_difference cycle := round discharge_capacity_difference 3]> features,
   discharge_capacity).

Definition extract_discharge_capacity_difference (df : DataFrame)
    (features : gmap string float64) (cycles : list Z)
  : outcome (gmap string float64) :=
  let df_discharge := discharge_by_cycle df in
  let prev_discharge_capacity := cycle_capacity df_discharge 2 in
  mret (foldl (difference_step df_discharge)
          (features, prev_discharge_capacity) cycles).1.

(** [np.arange(2, 51)]. *)
Definition arange_2_51 : list Z := seqZ 2 49.

(** [Features.extract]; the one-row table is the dict. *)
Definition extract (df : DataFrame) (mass : float64)
  : outcome (gmap string float64) :=
  let features : gmap string float64 := ∅ in
  features ← extract_initial_charge_capacity df features mass;
  features ← extract_initial_discharge_capacity df features mass;
  features ← extract_capacities_for_cycles df features arange_2_51;
  features ← extract_discharge_capacity_difference df features arange_2_51;
  features ← extract_ocv df features;
  mret features.

End Features.

(* ================================================================== *)
(** ** features.py: the coulombic efficiency on binary64 *)

Module Binary64.
Import Features.

Definition two52 : float := 4503599627370496%float.

(** [np.rint] of a number that is not negative.  Below [2^52] the sum
    with [2^52] is rounded to an integer, ties to the even one, and the
    difference is exact; from [2^52] on every binary64 number is an
    integer. *)
Definition rint_nonneg (y : float) : float :=
  if (y <? two52)%float then (y + two52 - two52)%float else y.

Definition rint (y : float) : float :=
  if (y <? 0)%float then (- rint_nonneg (- y))%float else rint_nonneg y.

Definition power_of_ten (ndigits : nat) : float :=
  Nat.iter ndigits (λ p, (p * 10)%float) 1%float.

(** [round(x, ndigits)] of a NumPy scalar, which is [np.round]: the
    product by the power of ten is rounded to an integer and divided
    by the power of ten. *)
Definition round (x : float) (ndigits : nat) : float :=
  (rint (x * power_of_ten ndigits) / power_of_ten ndigits)%float.

(** [extract_initial_coulombic_efficiency] on a dict of binary64
    numbers; the table [df] is not read. *)
Definition extract_initial_coulombic_efficiency
    (features : gmap string float) : outcome (gmap string float) :=
  initial_discharge_capacity ← getitem features key_discharge;
  initial_charge_capacity ← getitem features key_charge;
  let initial_coulombic_efficiency :=
    round (initial_discharge_capacity / initial_charge_capacity * 100)%float
      1 in
  mret (<[key_efficiency := initial_coulombic_efficiency]> features).


End Binary64.

(* ================================================================== *)
(** ** Python strings *)

Module Str.

(** [sub in s]. *)
Fixpoint contains (sub s : string) : bool :=
  if String.prefix sub s then true
  else match s with
       | EmptyString => false
       | String _ s' => contains sub s'
       end.

(** [s.split(sep)] for a one-character separator. *)
Fixpoint split (sep : ascii) (s : string) : list string :=
  match s with
  | EmptyString => [EmptyString]
  | String c s' =>
      if Ascii.eqb c sep then EmptyString :: split sep s'
      else match split sep s' with
           | t :: ts => String c t :: ts
           | [] => [String c EmptyString]
           end
  end.

(** [l[i]] on a list. *)
Definition index {A} (l : list A) (i : nat) : outcome A :=
  match l !! i with
  | Some x => Ok x
  | None => Raise IndexError
  end.

Definition is_digit (c : ascii) : bool :=
  (48 <=? nat_of_ascii c)%nat && (nat_of_ascii c <=? 57)%nat.

Definition newline : ascii := ascii_of_nat 10.

(** [s.rfind(c)]: the index of the last occurrence. *)
Fixpoint rfind (c : ascii) (s : string) : option nat :=
  match s with
  | EmptyString => None
  | String d s' =>
      match rfind c s' with
      | Some i => Some (S i)
      | None => if Ascii.eqb d c then Some O else None
      end
  end.

End Str.

(* ================================================================== *)
(** ** What the program gets from outside: the Biologic reader and the
       built-in [float] *)

Class Runtime : Type := {
  (** [BiologicReader().read(path)] followed by [convert_to_cloud];
      [None] when either raises an [Exception]. *)
  biologic_reader : string → option DataFrame;
  (** [float(s)]; [ValueError] when [s] is not a number. *)
  float : string → outcome float64;
}.

(* ================================================================== *)
(** ** cam_biologic_data_import.py *)

Module CamBiologicDataImport.
Import Str.

(** [input(prompt)]: the next line of the standard input, [EOFError]
    when there is none. *)
Definition input (stdin : list string) : outcome string * list string :=
  match stdin with
  | [] => (Raise EOFError, [])
  | line :: rest => (Ok line, rest)
  end.

(** The [except Exception as e: logging.error(...); raise] handler that
    closes [get_protocol_type]: the exception is raised again, and
    [SystemExit] is not an [Exception]. *)
Definition log_and_reraise {A} (m : outcome A) : outcome A :=
  match m with
  | Raise e => Raise e
  | other => other
  end.

Definition get_protocol_type (filename : string) (stdin : list string)
  : outcome string * list string :=
  if contains "OCV" filename then (log_and_reraise (SystemExit 1), stdin)
  else if contains "Life" filename then (log_and_reraise (Ok "CL"), stdin)
  else if contains "Formation-Capacity-Check" filename
       then (log_and_reraise (Ok "FC"), stdin)
  else if contains "Formation" filename then (log_and_reraise (Ok "F"), stdin)
  else let '(answer, stdin') := input stdin in
       (log_and_reraise answer, stdin').

Definition extract_mass_from_filename `{Runtime} (filename : string)
  : float64 :=
  match token ← index (split "_" filename) 1; float token with
  | Ok mass => mass
  | _ => of_Z 1      (* bare [except:] *)
  end.

Definition convert_file_to_cloud `{Runtime} (mpr_file_path : string)
  : option DataFrame :=
  biologic_reader mpr_file_path.

(** [pd.DataFrame(dictionary, index=[0])]: the one-row table of the dict. *)
Definition create_dataframe (dictionary : gmap string float64)
  : gmap string float64 := dictionary.

(** *** The pattern [^(.*?)(CC-\d{1,2})] *)

(** [(CC-\d{1,2})] at the start of [s]: the greedy [{1,2}] takes the
    second digit when there is one. *)
Definition match_CC_digits (s : string) : option string :=
  match s with
  | String "C" (String "C" (String "-" (String d1 rest))) =>
      if is_digit d1 then
        match rest with
        | String d2 _ =>
            if is_digit d2
            then Some (String "C" (String "C" (String "-"
                         (String d1 (String d2 EmptyString)))))
            else Some (String "C" (String "C" (String "-"
                         (String d1 EmptyString))))
        | EmptyString =>
            Some (String "C" (String "C" (String "-"
                    (String d1 EmptyString))))
        end
      else None
  | _ => None
  end.

(** [re.match(pattern, s)]: the two groups.  The lazy [(.*?)] grows one
    character at a time, never over a newline, until the second group
    matches. *)
Fixpoint re_match_CC (s : string) : option (string * string) :=
  match match_CC_digits s with
  | Some g2 => Some (EmptyString, g2)
  | None =>
      match s with
      | EmptyString => None
      | String c s' =>
          if Ascii.eqb c newline then None
          else (λ g, (String c g.1, g.2)) <$> re_match_CC s'
      end
  end.

(** [separator.join(match.groups())]. *)
Definition join_groups (separator : string) (g : string * string) : string :=
  g.1 +:+ separator +:+ g.2.

(** [match[0]]: the whole text the pattern matched. *)
Definition group0 (g : string * string) : string := g.1 +:+ g.2.

Inductive filenames : Type :=
  | Single (filename : string)
  | Several (filename : list string).

Inductive sample_ids : Type :=
  | One (sample_id : option string)
  | Many (sample_id : list string).

Definition process_filenames_CC (filename : filenames) : sample_ids :=
  let separator := "-" in
  match filename with
  | Several l =>
      Many (omap (λ f, join_groups separator <$> re_match_CC f) l)
  | Single f =>
      match re_match_CC f with
      | Some m => One (Some (group0 m))
      | None => One None
      end
  end.

(** *** Files chosen in the dialog *)

Inductive selection : Type :=
  | Cancelled
  | OnePath (path : string)
  | Paths (paths : list string).

(** The result is a path, [None], or a list of paths. *)
Definition filter_OCV_files (input_filenames : selection)
  : outcome (option string + list string) :=
  match input_filenames with
  | OnePath s => Ok (inl (if contains "OCV" s then None else Some s))
  | Paths l => Ok (inr (filter (λ s, contains "OCV" s = false) l))
  | Cancelled => Raise TypeError
  end.

End CamBiologicDataImport.

(* ================================================================== *)
(** ** extract_electrochemical_features.py *)

Module ExtractElectrochemicalFeatures.
Import Features.

(** The table handed over is [None] when the reader failed; the first
    [df["step_type"]] then raises [TypeError]. *)
Definition subscript (cloud_data_df : option DataFrame) : outcome DataFrame :=
  match cloud_data_df with
  | Some df => Ok df
  | None => Raise TypeError
  end.

Definition extract_formation_features (filename : string)
    (cloud_data_df : option DataFrame) (mass : float64)
  : outcome (gmap string float64) :=
  let features_dict : gmap string float64 := ∅ in
  df ← subscript cloud_data_df;
  features_dict ← extract_ocv df features_dict;
  features_dict ← extract_initial_charge_capacity df features_dict mass;
  features_dict ← extract_initial_discharge_capacity df features_dict mass;
  features_dict ← extract_initial_coulombic_efficiency df features_dict;
  mret features_dict.

Definition extract_qc_cycle_life_features (filename : string)
    (cloud_data_df : option DataFrame) (mass : float64)
  : outcome (gmap string float64) :=
  let features_dict : gmap string float64 := ∅ in
  df ← subscript cloud_data_df;
  features_dict ← extract_initial_charge_capacity df features_dict mass;
  features_dict ← extract_initial_discharge_capacity df features_dict mass;
  features_dict ← extract_capacities_for_cycles df features_dict [50];
  mret features_dict.

Definition extract_all_cycle_life_features (filename : string)
    (cloud_data_df : option DataFrame) (mass : float64)
  : outcome (gmap string float64) :=
  let features_dict : gmap string float64 := ∅ in
  df ← subscript cloud_data_df;
  features_dict ← extract_initial_charge_capacity df features_dict mass;
  features_dict ← extract_initial_discharge_capacity df features_dict mass;
  features_dict ← extract_capacities_for_cycles df features_dict arange_2_51;
  features_dict ←
    extract_discharge_capacity_difference df features_dict arange_2_51;
  mret features_dict.

End ExtractElectrochemicalFeatures.

(* ================================================================== *)
(** ** main.py: the loop over the selected files *)

Module Main.
Import Str CamBiologicDataImport ExtractElectrochemicalFeatures.

(** [Path(path).name] and [Path(path).stem] of a POSIX path: the last
    component that is neither empty nor ["."], up to its last dot when
    that dot is neither its first nor its last character. *)
Definition name (path : string) : string :=
  default EmptyString
    (last (filter (λ part, part ≠ EmptyString ∧ part ≠ ".")
                  (split "/" path))).

Definition stem (path : string) : string :=
  let name := name path in
  match rfind "." name with
  | Some i =>
      if (0 <? i)%nat && (i <? String.length name - 1)%nat
      then substring 0 i name
      else name
  | None => name
  end.

(** [re.compile(r'(.*?)-CC')] anchored at the start of [s]. *)
Fixpoint lazy_until_CC (s : string) : option string :=
  if String.prefix "-CC" s then Some EmptyString
  else match s with
       | EmptyString => None
       | String c s' =>
           if Ascii.eqb c newline then None
           else String c <$> lazy_until_CC s'
       end.

(** [pattern.findall(s)[0]]: the group of the leftmost match. *)
Fixpoint findall_first (s : string) : outcome string :=
  match lazy_until_CC s with
  | Some g => Ok g
  | None =>
      match s with
      | EmptyString => Raise IndexError
      | String _ s' => findall_first s'
      end
  end.

(** The two records with which the loop itself closes a turn: the one
    of line 91 after a turn that ran to its end, the one its handler
    writes at line 96 for a file it skips.  What the functions of
    [cam_biologic_data_import.py] write to the log on their own is not
    part of this record. *)
Inductive log_record : Type :=
  | Finished (filename : string)
  | Error (filename : string) (e : exn).

Record state : Type := State {
  qc_sample_summary : list (gmap string float64);
  cycle_life_sample_data : list (gmap string float64);
  sample_ID_list : list string;
  filename : option string;      (* unbound until the first assignment *)
  stdin : list string;
  log : list log_record;
}.

#[global] Instance log_record_eq_dec : EqDecision log_record.
Proof. solve_decision. Defined.
#[global] Instance state_eq_dec : EqDecision state.
Proof. solve_decision. Defined.

Definition initial (stdin : list string) : state :=
  State [] [] [] None stdin [].

Definition set_filename (f : string) (s : state) : state :=
  State (qc_sample_summary s) (cycle_life_sample_data s) (sample_ID_list s)
    (Some f) (stdin s) (log s).
Definition set_stdin (i : list string) (s : state) : state :=
  State (qc_sample_summary s) (cycle_life_sample_data s) (sample_ID_list s)
    (filename s) i (log s).
Definition append_qc (r : gmap string float64) (s : state) : state :=
  State (qc_sample_summary s ++ [r]) (cycle_life_sample_data s)
    (sample_ID_list s) (filename s) (stdin s) (log s).
Definition append_cycle_life (r : gmap string float64) (s : state) : state :=
  State (qc_sample_summary s) (cycle_life_sample_data s ++ [r])
    (sample_ID_list s) (filename s) (stdin s) (log s).
Definition append_sample_ID (i : string) (s : state) : state :=
  State (qc_sample_summary s) (cycle_life_sample_data s)
    (sample_ID_list s ++ [i]) (filename s) (stdin s) (log s).
Definition logging (r : log_record) (s : state) : state :=
  State (qc_sample_summary s) (cycle_life_sample_data s) (sample_ID_list s)
    (filename s) (stdin s) (log s ++ [r]).

(** Statements of the loop body: a state transformer that may raise. *)
Definition M (A : Type) : Type := state → state * outcome A.

#[global] Instance M_ret : MRet M := λ A a s, (s, Ok a).
#[global] Instance M_bind : MBind M := λ A B f m s,
  match m s with
  | (s', Ok a) => f a s'
  | (s', Raise e) => (s', Raise e)
  | (s', SystemExit c) => (s', SystemExit c)
  end.

Definition lift {A} (o : outcome A) : M A := λ s, (s, o).
Definition modify (f : state → state) : M unit := λ s, (f s, Ok ()).

Definition classify (filename : string) : M string := λ s,
  let '(r, stdin') := get_protocol_type filename (stdin s) in
  (set_stdin stdin' s, r).

(** The sample ID of a file name: the primary pattern, then the one of
    the loop body ([filename] is a [str], so the result is [One]). *)
Definition resolve_sample_ID (filename : string) : outcome string :=
  match process_filenames_CC (Single filename) with
  | One (Some sample_ID) => Ok sample_ID
  | One None | Many _ => findall_first filename
  end.

(** The body of the [try]. *)
Definition process_file `{Runtime} (path : option string) : M unit :=
  match path with
  | None => lift (Raise TypeError)        (* [Path(None)] *)
  | Some path =>
      let filename := stem path in
      modify (set_filename filename);;
      let cloud_data_df := convert_file_to_cloud path in
      sample_ID ← lift (resolve_sample_ID filename);
      let mass := extract_mass_from_filename filename in
      protocol_type ← classify filename;
      (if bool_decide (protocol_type ∈ ["F"; "FC"]) then
         features_dict ←
           lift (extract_formation_features filename cloud_data_df mass);
         modify (append_qc (create_dataframe features_dict))
       else if bool_decide (protocol_type = "CL") then
         features_qc_dict ←
           lift (extract_qc_cycle_life_features filename cloud_data_df mass);
         modify (append_qc (create_dataframe features_qc_dict));;
         features_dict ←
           lift (extract_all_cycle_life_features filename cloud_data_df mass);
         modify (append_cycle_life (create_dataframe features_dict))
       else mret ());;
      modify (logging (Finished filename));;
      modify (append_sample_ID sample_ID)
  end.

(** [for path in mpr_file_path: try: ... except Exception as e:
    logging.error(f"... {filename}: {e}"); continue].  The handler reads
    the variable [filename]; [SystemExit] is not an [Exception] and
    leaves the loop and the program. *)
Fixpoint file_loop `{Runtime} (mpr_file_path : list (option string))
    (s : state) : outcome state :=
  match mpr_file_path with
  | [] => Ok s
  | path :: rest =>
      match process_file path s with
      | (s', Ok _) => file_loop rest s'
      | (s', Raise e) =>
          match filename s' with
          | Some f => file_loop rest (logging (Error f e) s')
          | None => Raise NameError
          end
      | (_, SystemExit c) => SystemExit c
      end
  end.

(** [filter_OCV_files] and the wrapping of a single result in a list. *)
Definition selected_paths (mpr_file_path_unfiltered : selection)
  : outcome (list (option string)) :=
  mpr_file_path ← filter_OCV_files mpr_file_path_unfiltered;
  mret (match mpr_file_path with
        | inl single => [single]
        | inr paths => Some <$> paths
        end).

(** [df.insert(0, column, values)] and [df[column] = values] for a list
    of values: a table that has no row yet takes its rows from the
    values; otherwise there must be one value per row. *)
Definition set_column (values : list string)
    (table : list (gmap string float64))
  : outcome (list (string * gmap string float64)) :=
  match table with
  | [] => Ok ((λ v, (v, ∅)) <$> values)
  | _ :: _ =>
      if bool_decide (length values = length table)
      then Ok (zip values table)
      else Raise ValueError
  end.

(** [qc_sample_summary.insert(0, 'Sample IDs', sample_ID_list)]. *)
Definition insert_sample_IDs (s : state)
  : outcome (list (string * gmap string float64)) :=
  set_column (sample_ID_list s) (qc_sample_summary s).

Definition main `{Runtime} (selected : selection) (stdin : list string)
  : outcome (list (string * gmap string float64)) :=
  mpr_file_path ← selected_paths selected;
  s ← file_loop mpr_file_path (initial stdin);
  insert_sample_IDs s.

Definition is_error (r : log_record) : bool :=
  match r with Error _ _ => true | Finished _ => false end.

(** The records of the handler of the loop: one for each file it
    skipped. *)
Definition skipped (s : state) : list log_record :=
  filter (λ r, is_error r = true) (log s).

End Main.

(* ================================================================== *)
(** ** Sample data on which the model is run *)

Module Sample.
Import Str.

(** Value of a string of decimal digits. *)
Fixpoint digits (s : string) (acc : Z) : option Z :=
  match s with
  | EmptyString => Some acc
  | String c s' =>
      if is_digit c
      then digits s' (10 * acc + Z.of_nat (nat_of_ascii c - 48))
      else None
  end.

Definition unsigned_decimal (s : string) : option Qc :=
  match split "." s with
  | [i] =>
      if bool_decide (i = EmptyString) then None
      else Qc_of_Z <$> digits i 0
  | [i; f] =>
      if bool_decide (i = EmptyString) || bool_decide (f = EmptyString)
      then None
      else (λ n, Qc_of_Z n / pow10 (String.length f))%Qc
             <$> digits (i +:+ f) 0
  | _ => None
  end.

(** The part of Python's [float] the examples need: an optional sign,
    digits, and an optional fraction.  Other strings raise [ValueError]
    here; Python's own [float] accepts more (exponents, [inf], [nan],
    surrounding blanks). *)
Definition float_decimal (s : string) : outcome float64 :=
  let '(neg, body) :=
    match s with
    | String "-" s' => (true, s')
    | String "+" s' => (false, s')
    | _ => (false, s)
    end in
  match unsigned_decimal body with
  | Some q => Ok (Fin (if neg : bool then - q else q)%Qc)
  | None => Raise ValueError
  end.

(** A formation measurement: two rest samples before cycling, a charge
    and a discharge step in cycle 1. *)
Definition formation_df : DataFrame :=
  [ Row "REST" 0 1 (decimal 31234 4) (of_Z 0);
    Row "REST" 0 1 (decimal 32006 4) (of_Z 0);
    Row "CHARGE" 1 1 (decimal 38 1) (decimal 1 3);
    Row "CHARGE" 1 1 (decimal 42 1) (decimal 2 3);
    Row "DISCHARGE" 2 1 (decimal 40 1) (decimal 9 4);
    Row "DISCHARGE" 2 1 (decimal 30 1) (decimal 18 4) ].

(** The same, followed by the rest step that opens cycle 2. *)
Definition two_rests_df : DataFrame :=
  formation_df ++ [ Row "REST" 0 2 (decimal 41 1) (of_Z 0) ].

(** A cycle-life measurement whose discharge capacities are 10, 9 and
    9.5 in cycles 2, 3 and 4; cycle 5 has no discharge step. *)
Definition cycling_df : DataFrame :=
  formation_df ++
  [ Row "DISCHARGE" 2 2 (decimal 30 1) (of_Z 4);
    Row "DISCHARGE" 2 2 (decimal 30 1) (of_Z 10);
    Row "DISCHARGE" 2 3 (decimal 30 1) (of_Z 9);
    Row "CHARGE" 1 4 (decimal 42 1) (of_Z 11);
    Row "DISCHARGE" 2 4 (decimal 30 1) (decimal 95 1);
    Row "CHARGE" 1 5 (decimal 42 1) (of_Z 11) ].

(** A reader that knows three kinds of files and fails on the others. *)
Definition reader (path : string) : option DataFrame :=
  if contains "Life" path then Some cycling_df
  else if contains "Formation" path then Some formation_df
  else if contains "Rest" path then Some two_rests_df
  else None.

Definition runtime : Runtime :=
  {| biologic_reader := reader; float := float_decimal |}.

End Sample.

(* ================================================================== *)
(** ** cam_biologic_data_import.py: selection of files and the second
       pattern *)

Module FileSelection.
Import Str CamBiologicDataImport.

(** The loop of [filter_mpr_files]; [getsize] is [os.path.getsize], which
    raises for a file it cannot read. *)
Fixpoint filter_mpr_files_loop (getsize : string → outcome Z)
    (lower_limit_bytes upper_limit_bytes : Z)
    (mpr_files filtered_files : list string) : outcome (list string) :=
  match mpr_files with
  | [] => Ok filtered_files
  | file :: rest =>
      file_size ← getsize file;
      filter_mpr_files_loop getsize lower_limit_bytes upper_limit_bytes rest
        (if bool_decide (lower_limit_bytes ≤ file_size < upper_limit_bytes)
         then filtered_files ++ [file]
         else filtered_files)
  end.

Definition filter_mpr_files (getsize : string → outcome Z)
    (mpr_files : list string) (lower_limit_kb upper_limit_kb : Z)
  : outcome (list string) :=
  let filtered_files := [] in
  let lower_limit_bytes := lower_limit_kb * 1024 in
  let upper_limit_bytes := upper_limit_kb * 1024 in
  filter_mpr_files_loop getsize lower_limit_bytes upper_limit_bytes
    mpr_files filtered_files.

(** [get_file_path], from the tuple the dialog returns: [None] for an
    empty one, the list for more than one file, the path itself for
    exactly one. *)
Definition get_file_path (mpr_files : list string) : selection :=
  match mpr_files with
  | [] => Cancelled
  | first :: _ =>
      if bool_decide (1 < length mpr_files)%nat
      then Paths mpr_files
      else OnePath first
  end.

(** *** The pattern
    [^(QCL-\d+|Lims-\d+)(.*?)-(Cycle-Life|Formation-Capacity-Check|Formation)] *)

(** A literal at the start of [s]: what follows it. *)
Fixpoint strip_prefix (literal s : string) : option string :=
  match literal, s with
  | EmptyString, _ => Some s
  | String a literal', String b s' =>
      if Ascii.eqb a b then strip_prefix literal' s' else None
  | String _ _, EmptyString => None
  end.

(** The greedy [\d+] takes every digit at the start of [s]; giving some
    back never helps, since [(.*?)] can take them. *)
Fixpoint span_digits (s : string) : string * string :=
  match s with
  | EmptyString => (EmptyString, EmptyString)
  | String c s' =>
      if is_digit c
      then let '(digits, rest) := span_digits s' in (String c digits, rest)
      else (EmptyString, s)
  end.

Definition literal_digits (literal s : string) : option (string * string) :=
  match strip_prefix literal s with
  | Some after =>
      let '(digits, rest) := span_digits after in
      if bool_decide (digits = EmptyString) then None
      else Some (literal +:+ digits, rest)
  | None => None
  end.

(** [(QCL-\d+|Lims-\d+)]: the group and what follows it. *)
Definition match_sample (s : string) : option (string * string) :=
  match literal_digits "QCL-" s with
  | Some g => Some g
  | None => literal_digits "Lims-" s
  end.

(** [-(Cycle-Life|Formation-Capacity-Check|Formation)] at the start of
    [s]: the alternatives are tried in this order. *)
Definition match_marker (s : string) : option string :=
  if String.prefix "-Cycle-Life" s then Some "Cycle-Life"
  else if String.prefix "-Formation-Capacity-Check" s
       then Some "Formation-Capacity-Check"
  else if String.prefix "-Formation" s then Some "Formation"
  else None.

(** The lazy [(.*?)] followed by the marker. *)
Fixpoint lazy_until_marker (s : string) : option (string * string) :=
  match match_marker s with
  | Some g3 => Some (EmptyString, g3)
  | None =>
      match s with
      | EmptyString => None
      | String c s' =>
          if Ascii.eqb c newline then None
          else (λ g, (String c g.1, g.2)) <$> lazy_until_marker s'
      end
  end.

(** [re.match(pattern, s)]: the three groups. *)
Definition re_match_protocol (s : string) : option (string * string * string) :=
  match match_sample s with
  | Some (g1, rest) =>
      match lazy_until_marker rest with
      | Some (g2, g3) => Some (g1, g2, g3)
      | None => None
      end
  | None => None
  end.

Definition join3 (separator : string) (g : string * string * string) : string :=
  g.1.1 +:+ separator +:+ g.1.2 +:+ separator +:+ g.2.

(** [match[0]]: between the second and the third group the pattern has
    a ['-']. *)
Definition whole_match (g : string * string * string) : string :=
  g.1.1 +:+ g.1.2 +:+ "-" +:+ g.2.

Definition process_filenames (filename : filenames) : sample_ids :=
  let separator := "-" in
  match filename with
  | Several l =>
      Many (omap (λ f, join3 separator <$> re_match_protocol f) l)
  | Single f =>
      match re_match_protocol f with
      | Some m => One (Some (whole_match m))
      | None => One None
      end
  end.

End FileSelection.

(* ================================================================== *)
(** ** main.py: after the loop *)

Module Report.
Import Str Main.

(** [cycle_life_sample_data['Sample IDs'] = sample_ID_list]. *)
Definition detail_table (s : state)
  : outcome (list (string * gmap string float64)) :=
  set_column (sample_ID_list s) (cycle_life_sample_data s).

(** The two statements in the order of the script; neither is inside a
    [try] whose handler continues. *)
Definition attach_sample_IDs (s : state)
  : outcome (list (string * gmap string float64)
             * list (string * gmap string float64)) :=
  summary ← insert_sample_IDs s;
  detail ← detail_table s;
  mret (summary, detail).

(** [[col for col in columns if marker in col and col != 'Sample IDs']]. *)
Definition column_group (marker : string) (columns : list string)
  : list string :=
  filter (λ col, contains marker col = true ∧ col ≠ "Sample IDs") columns.

Definition initial_cols := column_group "Initial".
Definition cycle_cols := column_group "Cycle".
Definition difference_cols := column_group "Difference".

End Report.

(* ================================================================== *)
(** ** Notions in which the properties are stated *)

Module Notions.
Import Str Features CamBiologicDataImport ExtractElectrochemicalFeatures Main.

(** [m] is the greatest number of [s], NaN entries apart; NaN when [s]
    holds nothing else. *)
Definition greatest (m : float64) (s : list float64) : Prop :=
  (isnan m = false ∧ m ∈ s ∧ ∀ v, v ∈ s → isnan v = false → le v m = true)
  ∨ (m = NaN ∧ ∀ v, v ∈ s → v = NaN).

(** The [step_amp_hours] of the rows of a step type in cycle 1. *)
Definition first_cycle (name : string) (df : DataFrame) : list float64 :=
  step_amp_hours <$> filter (λ r, step_type r = name ∧ cycle r = 1) df.

(** The division by the mass raises [ZeroDivisionError]: the mass is
    zero, and cycle 1 has no CHARGE row or no DISCHARGE row. *)
Definition zero_division (df : DataFrame) (mass : float64) : bool :=
  zero mass
  && (bool_decide (first_cycle "CHARGE" df = [])
      || bool_decide (first_cycle "DISCHARGE" df = [])).

(** The [step_amp_hours] of the DISCHARGE rows of a cycle. *)
Definition discharge_of (c : Z) (df : DataFrame) : list float64 :=
  step_amp_hours <$>
    filter (λ r, step_type r = "DISCHARGE" ∧ cycle r = c) df.

(** The drift of a capacity [x] against the baseline [prev]. *)
Definition drift (x prev : float64) : float64 :=
  round (div (sub x prev) (div prev (of_Z 100))) 3.

(** [t] occurs in [s]. *)
Definition infix (t s : string) : Prop :=
  ∃ pre post, s = pre +:+ t +:+ post.

(** The protocol codes the loop body has a branch for. *)
Definition recognised (protocol_type : string) : Prop :=
  protocol_type ∈ ["F"; "FC"; "CL"].

(** The row a file of a recognised protocol adds to the summary. *)
Definition summary_row `{Runtime} (path protocol_type : string)
  : outcome (gmap string float64) :=
  let filename := stem path in
  let mass := extract_mass_from_filename filename in
  if bool_decide (protocol_type ∈ ["F"; "FC"])
  then extract_formation_features filename (convert_file_to_cloud path) mass
  else extract_qc_cycle_life_features filename
         (convert_file_to_cloud path) mass.

(** What is looked at in the state a run ends in: the number of rows of
    the two tables, the sample IDs and the log. *)
Definition outline (r : outcome state)
  : option (nat * nat * list string * list log_record) :=
  match r with
  | Ok s => Some (length (qc_sample_summary s),
                  length (cycle_life_sample_data s),
                  sample_ID_list s, log s)
  | _ => None
  end.

End Notions.
Export Notions.

Module FeatureSets.
Import Features.

(** The dict of the two initial capacities, from which both cycle-life
    policies start. *)
Definition initial_features (df : DataFrame) (mass : float64)
  : gmap string float64 :=
  let c := series_max (first_cycle "CHARGE" df) in
  let d := series_max (first_cycle "DISCHARGE" df) in
  <[key_specific_discharge := round (div (mul d (of_Z 1000)) mass) 1]>
    (<[key_discharge := round (mul d (of_Z 1000)) 3]>
       (<[key_specific_charge := round (div (mul c (of_Z 1000)) mass) 1]>
          (<[key_charge := round (mul c (of_Z 1000)) 3]> ∅))).

(** The retention of cycle [c] against the initial discharge capacity
    that the dict holds. *)
Definition retention (df : DataFrame) (c : Z) : float64 :=
  round (div (mul (cycle_capacity (discharge_by_cycle df) c) (of_Z 100))
           (div (round (mul (series_max (first_cycle "DISCHARGE" df))
                          (of_Z 1000)) 3) (of_Z 1000))) 1.

(** The summary row of a cycle-life file. *)
Definition qc_features (df : DataFrame) (mass : float64)
  : gmap string float64 :=
  <[key_retention 50 := retention df 50]> (initial_features df mass).

(** The detail row of a cycle-life file. *)
Definition detail_features (df : DataFrame) (mass : float64)
  : gmap string float64 :=
  (foldl (difference_step (discharge_by_cycle df))
     (foldl (λ features c, <[key_retention c := retention df c]> features)
        (initial_features df mass) arange_2_51,
      cycle_capacity (discharge_by_cycle df) 2) arange_2_51).1.

(** The dict of a formation file whose open-circuit voltage is [v]. *)
Definition formation_features (df : DataFrame) (mass v : float64)
  : gmap string float64 :=
  let c := series_max (first_cycle "CHARGE" df) in
  let d := series_max (first_cycle "DISCHARGE" df) in
  <[key_efficiency :=
      round (mul (div (round (mul d (of_Z 1000)) 3)
                    (round (mul c (of_Z 1000)) 3)) (of_Z 100)) 1]>
    (<[key_specific_discharge := round (div (mul d (of_Z 1000)) mass) 1]>
       (<[key_discharge := round (mul d (of_Z 1000)) 3]>
          (<[key_specific_charge := round (div (mul c (of_Z 1000)) mass) 1]>
             (<[key_charge := round (mul c (of_Z 1000)) 3]>
                (<[key_ocv := round v 3]> ∅))))).

(** The columns of a cycle-life detail row. *)
Definition detail_keys : list string :=
  [key_charge; key_specific_charge; key_discharge; key_specific_discharge]
  ++ (key_retention <$> arange_2_51) ++ (key_difference <$> arange_2_51).

(** [s] starts with a decimal digit. *)
Definition starts_with_digit (s : string) : bool :=
  match s with
  | String d _ => Str.is_digit d
  | EmptyString => false
  end.

End FeatureSets.
Export FeatureSets.

(* ================================================================== *)
(** ** Files a run can process *)

Module Batches.
Import Str CamBiologicDataImport Main Sample.

(** A cycle-life file the loop body gets through: no OCV marker, the
    sample ID resolves, the reader gives a table, and the division by
    the mass of the file name does not raise on it. *)
Definition processable_cycle_life `{Runtime} (path : string) : Prop :=
  contains "OCV" (stem path) = false
  ∧ contains "Life" (stem path) = true
  ∧ (∃ sample_ID, resolve_sample_ID (stem path) = Ok sample_ID)
  ∧ (∃ df, biologic_reader path = Some df
           ∧ zero_division df (extract_mass_from_filename (stem path))
             = false).

(** A formation file the loop body gets through: moreover its table has
    a rest row of step 0, so that the open-circuit voltage exists. *)
Definition processable_formation `{Runtime} (path : string) : Prop :=
  contains "OCV" (stem path) = false
  ∧ contains "Life" (stem path) = false
  ∧ contains "Formation" (stem path) = true
  ∧ (∃ sample_ID, resolve_sample_ID (stem path) = Ok sample_ID)
  ∧ (∃ df, biologic_reader path = Some df
           ∧ Exists (λ r, step_type r = "REST" ∧ step_number r = 0) df
           ∧ zero_division df (extract_mass_from_filename (stem path))
             = false).

(** A reader whose tables start in cycle 2: a rest row, and no row of
    cycle 1. *)
Definition late_start : Runtime :=
  {| biologic_reader := λ _,
       Some [ Row "REST" 0 2 (decimal 41 1) (of_Z 0);
              Row "DISCHARGE" 2 2 (decimal 30 1) (of_Z 10) ];
     float := float_decimal |}.

(** A reader to which every file is corrupt. *)
Definition unreadable : Runtime :=
  {| biologic_reader := λ _, None; float := float_decimal |}.

End Batches.
Export Batches.

(** Closed goals are settled by evaluating their decision procedure. *)
Ltac by_evaluation :=
  match goal with
  | |- ?P => apply (bool_decide_eq_true_1 P); vm_compute; reflexivity
  end.

(* ================================================================== *)
(** * Properties *)

(** ** The order of [float64] *)

Section float_order.
Implicit Types x y z : float64.

Lemma le_not_nan x y : le x y = true → isnan x = false ∧ isnan y = false.
Proof. destruct x as [?|[]|], y as [?|[]|]; simpl; intuition congruence. Qed.

Lemma le_refl x : isnan x = false → le x x = true.
Proof.
  destruct x as [q|[]|]; simpl; try done.
  intros _. apply bool_decide_eq_true_2, Qcle_refl.
Qed.

Lemma le_total x y :
  isnan x = false → isnan y = false → le x y = true ∨ le y x = true.
Proof.
  destruct x as [a|[]|], y as [b|[]|]; simpl; try done; auto.
  intros _ _. rewrite !bool_decide_eq_true.
  destruct (Qclt_le_dec a b) as [?%Qclt_le_weak|?]; auto.
Qed.

Lemma le_trans x y z : le x y = true → le y z = true → le x z = true.
Proof.
  destruct x as [a|[]|], y as [b|[]|], z as [c|[]|]; simpl; try done.
  rewrite !bool_decide_eq_true. apply Qcle_trans.
Qed.

Lemma le_antisym x y : le x y = true → le y x = true → x = y.
Proof.
  destruct x as [a|[]|], y as [b|[]|]; simpl; try done.
  rewrite !bool_decide_eq_true. intros ??. f_equal. by apply Qcle_antisym.
Qed.

Lemma maximum_not_nan x y :
  isnan x = false → isnan y = false → isnan (maximum x y) = false.
Proof. unfold maximum. by destruct (le x y). Qed.

Lemma maximum_cases x y : maximum x y = x ∨ maximum x y = y.
Proof. unfold maximum. destruct (le x y); auto. Qed.

Lemma le_maximum_l x y :
  isnan x = false → isnan y = false → le x (maximum x y) = true.
Proof.
  intros Hx Hy. unfold maximum. destruct (le x y) eqn:E; [done|].
  by apply le_refl.
Qed.

Lemma le_maximum_r x y :
  isnan x = false → isnan y = false → le y (maximum x y) = true.
Proof.
  intros Hx Hy. unfold maximum. destruct (le x y) eqn:E.
  - by apply le_refl.
  - destruct (le_total x y) as [?|?]; congruence.
Qed.
End float_order.

(** ** Boolean masks and the maximum of a Series *)

Section pandas_facts.
Context {A : Type}.

Lemma mask_fmap (f : A → bool) (l : list A) :
  mask (f <$> l) l = filter (λ r, f r = true) l.
Proof.
  induction l as [|r l IH]; [done|].
  rewrite fmap_cons, filter_cons. cbn [mask]. rewrite IH.
  destruct (f r) eqn:E.
  - by rewrite decide_True.
  - by rewrite decide_False.
Qed.

Lemma logical_and_fmap (f g : A → bool) (l : list A) out :
  logical_and (f <$> l) (g <$> l) out = (λ r, f r && g r) <$> l.
Proof.
  unfold logical_and. induction l as [|r l IH]; [done|].
  rewrite !fmap_cons. cbn [zip_with]. by rewrite IH.
Qed.
End pandas_facts.

Lemma foldl_maximum_spec (vs : list float64) (v : float64) :
  isnan v = false → Forall (λ w, isnan w = false) vs →
  let m := foldl maximum v vs in
  isnan m = false ∧ m ∈ v :: vs ∧ ∀ w, w ∈ v :: vs → le w m = true.
Proof.
  revert v. induction vs as [|u vs IH]; intros v Hv Hvs; simpl.
  - split; [done|]. split; [left|].
    intros w ->%list_elem_of_singleton. by apply le_refl.
  - inversion_clear Hvs as [|?? Hu Hvs'].
    destruct (IH (maximum v u) (maximum_not_nan _ _ Hv Hu) Hvs')
      as (Hm & Hin & Hub).
    split; [done|]. split.
    + apply elem_of_cons in Hin as [Hin|Hin].
      * rewrite Hin. destruct (maximum_cases v u) as [->| ->].
        -- left.
        -- right; left.
      * by do 2 right.
    + intros w Hw.
      assert (le (maximum v u) (foldl maximum (maximum v u) vs) = true)
        as Hmu by (apply Hub; left).
      apply elem_of_cons in Hw as [Hw|Hw].
      { subst w. apply (le_trans _ (maximum v u)); [|exact Hmu].
        by apply le_maximum_l. }
      apply elem_of_cons in Hw as [Hw|Hw].
      { subst w. apply (le_trans _ (maximum v u)); [|exact Hmu].
        by apply le_maximum_r. }
      apply Hub. by right.
Qed.

Lemma series_max_greatest (s : list float64) : greatest (series_max s) s.
Proof.
  unfold series_max.
  destruct (filter (λ v, isnan v = false) s) as [|v vs] eqn:E.
  - right. split; [done|]. intros v Hv.
    destruct (isnan v) eqn:Hn; [by destruct v|].
    assert (v ∈ filter (λ v, isnan v = false) s) as Hin
      by (by apply list_elem_of_filter).
    rewrite E in Hin. by apply elem_of_nil in Hin.
  - assert (Forall (λ w, isnan w = false) (v :: vs)) as Hall.
    { rewrite <- E. apply Forall_forall. by intros w [? _]%list_elem_of_filter. }
    inversion_clear Hall as [|?? Hv Hvs].
    destruct (foldl_maximum_spec vs v Hv Hvs) as (Hm & Hin & Hub).
    left. split; [done|]. split.
    + rewrite <- E in Hin. by apply list_elem_of_filter in Hin as [_ ?].
    + intros w Hw Hn. apply Hub. rewrite <- E. by apply list_elem_of_filter.
Qed.

Lemma greatest_unique (m m' : float64) (s s' : list float64) :
  s ≡ₚ s' → greatest m s → greatest m' s' → m = m'.
Proof.
  intros Hp [(Hn & Hin & Hub)|[-> Hall]] [(Hn' & Hin' & Hub')|[-> Hall']].
  - apply le_antisym.
    + apply Hub'; [by rewrite <- Hp|done].
    + apply Hub; [by rewrite Hp|done].
  - rewrite Hp in Hin. apply Hall' in Hin. by subst.
  - rewrite <- Hp in Hin'. apply Hall in Hin'. by subst.
  - done.
Qed.

Lemma series_max_Permutation (s s' : list float64) :
  s ≡ₚ s' → series_max s = series_max s'.
Proof.
  intros Hp. eapply greatest_unique; [done|apply series_max_greatest..].
Qed.

Lemma series_max_singleton (v : float64) : series_max [v] = v.
Proof. by destruct v. Qed.

(* ================================================================== *)
(** ** Open-circuit voltage *)

Section ocv.
Import Features Sample.

(** The rows [extract_ocv] reads are those of step type REST and step
    number 0, whatever their cycle: the comparison [df["cycle"] == 1]
    is passed as the output array of the conjunction. *)
Lemma extract_ocv_rows (df : DataFrame) (features : gmap string float64) :
  extract_ocv df features =
    (v ← iloc_last
           (voltage <$>
              filter (λ r, step_type r = "REST" ∧ step_number r = 0) df);
     mret (<[key_ocv := round v 3]> features)).
Proof.
  unfold extract_ocv, step_type_is, step_number_is.
  rewrite logical_and_fmap, mask_fmap.
  erewrite list_filter_iff; [reflexivity|].
  intros r. cbn beta.
  rewrite andb_true_iff, !bool_decide_eq_true. done.
Qed.

(** C1 (the code departs from the claim).  On a record whose cycle 2
    opens with a REST row of step number 0, [extract_ocv] stores the
    voltage of that row, 4.1, although the last row with step type
    REST, step number 0 and cycle 1 has voltage 3.2006 (3.201 once
    rounded). *)
Theorem extract_ocv_reads_later_cycle :
  extract_ocv two_rests_df ∅ = Ok {[ key_ocv := decimal 41 1 ]}
  ∧ last (filter (λ r, step_type r = "REST" ∧ step_number r = 0
                       ∧ cycle r = 1) two_rests_df)
    = Some (Row "REST" 0 1 (decimal 32006 4) (of_Z 0))
  ∧ round (decimal 32006 4) 3 = decimal 3201 3
  ∧ decimal 41 1 ≠ decimal 3201 3.
Proof. repeat split; by_evaluation. Qed.

(** Whatever its cycle, a REST row of step number 0 that closes the
    record is the one whose voltage is stored. *)
Lemma extract_ocv_last_rest_row
    (df : DataFrame) (features : gmap string float64) (r : row) :
  step_type r = "REST" → step_number r = 0 →
  extract_ocv (df ++ [r]) features
  = Ok (<[key_ocv := round (voltage r) 3]> features).
Proof.
  intros Ht Hn. rewrite extract_ocv_rows, filter_app.
  rewrite (filter_cons_True _ r []) by done.
  rewrite filter_nil, fmap_app. unfold iloc_last.
  change (voltage <$> [r]) with [voltage r]. by rewrite last_snoc.
Qed.

(** When all the REST rows of step number 0 are in cycle 1, the value
    stored is the one the specification describes. *)
Lemma extract_ocv_cycle_1 (df : DataFrame) (features : gmap string float64) :
  (∀ r, r ∈ df → step_type r = "REST" → step_number r = 0 → cycle r = 1) →
  extract_ocv df features =
    (v ← iloc_last
           (voltage <$>
              filter (λ r, step_type r = "REST" ∧ step_number r = 0
                           ∧ cycle r = 1) df);
     mret (<[key_ocv := round v 3]> features)).
Proof.
  intros Hdf. rewrite extract_ocv_rows.
  assert (filter (λ r, step_type r = "REST" ∧ step_number r = 0) df
          = filter (λ r, step_type r = "REST" ∧ step_number r = 0
                         ∧ cycle r = 1) df) as ->; [|done].
  induction df as [|r df IH]; [done|].
  rewrite !filter_cons.
  rewrite IH by (intros; apply Hdf; [by right|done..]).
  apply decide_ext. split; [|tauto].
  intros [??]. split_and!; try done. apply Hdf; [left|done..].
Qed.
End ocv.

Section outcomes.
Lemma Ok_inj {A} (a b : A) : Ok a = Ok b → a = b.
Proof. by intros [= ->]. Qed.

(** With a rest row of step 0 the open-circuit voltage exists. *)
Lemma rest_row_iloc_last (df : DataFrame) :
  Exists (λ r, step_type r = "REST" ∧ step_number r = 0) df →
  ∃ v, iloc_last (voltage <$> filter (λ r, step_type r = "REST"
                                           ∧ step_number r = 0) df) = Ok v.
Proof.
  intros (r & Hin & Hr)%Exists_exists. unfold iloc_last.
  rewrite fmap_last.
  destruct (last (filter (λ r, step_type r = "REST" ∧ step_number r = 0) df))
    as [r'|] eqn:El; [by eexists|].
  apply last_None in El.
  assert (r ∈ filter (λ r, step_type r = "REST" ∧ step_number r = 0) df)
    as Hr' by (by apply list_elem_of_filter).
  rewrite El in Hr'. by apply elem_of_nil in Hr'.
Qed.
End outcomes.

(* ================================================================== *)
(** ** Initial capacities *)

Section initial_capacity.
Import Features Sample.

Lemma first_cycle_mask (name : string) (df : DataFrame) :
  step_amp_hours <$>
    mask (logical_and (step_type_is name df) (cycle_is 1 df) None) df
  = first_cycle name df.
Proof.
  unfold step_type_is, cycle_is, first_cycle.
  rewrite logical_and_fmap, mask_fmap. f_equal.
  apply list_filter_iff. intros r. cbn beta.
  by rewrite andb_true_iff, !bool_decide_eq_true.
Qed.

Lemma first_cycle_Permutation (name : string) (df df' : DataFrame) :
  df ≡ₚ df' → first_cycle name df ≡ₚ first_cycle name df'.
Proof. intros Hp. unfold first_cycle. by rewrite Hp. Qed.

(** The division by the mass raises when the selection is empty and
    the mass is zero, and only then. *)
Lemma extract_initial_charge_capacity_cases df features mass :
  extract_initial_charge_capacity df features mass =
    let m := series_max (first_cycle "CHARGE" df) in
    if bool_decide (first_cycle "CHARGE" df = []) && zero mass
    then Raise ZeroDivisionError
    else Ok (<[key_specific_charge :=
                 round (div (mul m (of_Z 1000)) mass) 1]>
               (<[key_charge := round (mul m (of_Z 1000)) 3]> features)).
Proof.
  unfold extract_initial_charge_capacity, truediv, max_is_python_float.
  rewrite first_cycle_mask. cbn zeta.
  by destruct (bool_decide (first_cycle "CHARGE" df = []) && zero mass).
Qed.

Lemma extract_initial_discharge_capacity_cases df features mass :
  extract_initial_discharge_capacity df features mass =
    let m := series_max (first_cycle "DISCHARGE" df) in
    if bool_decide (first_cycle "DISCHARGE" df = []) && zero mass
    then Raise ZeroDivisionError
    else Ok (<[key_specific_discharge :=
                 round (div (mul m (of_Z 1000)) mass) 1]>
               (<[key_discharge := round (mul m (of_Z 1000)) 3]> features)).
Proof.
  unfold extract_initial_discharge_capacity, truediv, max_is_python_float.
  rewrite first_cycle_mask. cbn zeta.
  by destruct (bool_decide (first_cycle "DISCHARGE" df = []) && zero mass).
Qed.

Lemma extract_initial_charge_capacity_eq df features mass :
  bool_decide (first_cycle "CHARGE" df = []) && zero mass = false →
  extract_initial_charge_capacity df features mass =
    let m := series_max (first_cycle "CHARGE" df) in
    Ok (<[key_specific_charge := round (div (mul m (of_Z 1000)) mass) 1]>
          (<[key_charge := round (mul m (of_Z 1000)) 3]> features)).
Proof.
  intros Hz. rewrite extract_initial_charge_capacity_cases. cbn zeta.
  by rewrite Hz.
Qed.

Lemma extract_initial_discharge_capacity_eq df features mass :
  bool_decide (first_cycle "DISCHARGE" df = []) && zero mass = false →
  extract_initial_discharge_capacity df features mass =
    let m := series_max (first_cycle "DISCHARGE" df) in
    Ok (<[key_specific_discharge := round (div (mul m (of_Z 1000)) mass) 1]>
          (<[key_discharge := round (mul m (of_Z 1000)) 3]> features)).
Proof.
  intros Hz. rewrite extract_initial_discharge_capacity_cases. cbn zeta.
  by rewrite Hz.
Qed.

Lemma zero_division_false df mass :
  zero_division df mass = false →
  bool_decide (first_cycle "CHARGE" df = []) && zero mass = false
  ∧ bool_decide (first_cycle "DISCHARGE" df = []) && zero mass = false.
Proof.
  unfold zero_division.
  destruct (zero mass), (bool_decide (first_cycle "CHARGE" df = [])),
    (bool_decide (first_cycle "DISCHARGE" df = [])); by cbn.
Qed.

Lemma zero_division_true df mass :
  zero_division df mass = true →
  zero mass = true
  ∧ (first_cycle "CHARGE" df = [] ∨ first_cycle "DISCHARGE" df = []).
Proof.
  unfold zero_division. intros [Hz Hs]%andb_true_iff. split; [done|].
  apply orb_true_iff in Hs as [Hs|Hs]; apply bool_decide_eq_true in Hs;
    [by left|by right].
Qed.

(** A row of the step type in cycle 1 makes the selection non-empty. *)
Lemma first_cycle_nonempty (name : string) (df : DataFrame) (mass : float64) :
  (∃ r, r ∈ df ∧ step_type r = name ∧ cycle r = 1) →
  bool_decide (first_cycle name df = []) && zero mass = false.
Proof.
  intros (r & Hin & Hr). rewrite bool_decide_eq_false_2; [done|].
  unfold first_cycle. intros Hnil%fmap_nil_inv.
  assert (r ∈ filter (λ r, step_type r = name ∧ cycle r = 1) df) as Hr'
    by (by apply list_elem_of_filter).
  rewrite Hnil in Hr'. by apply elem_of_nil in Hr'.
Qed.

(** C8.  With a CHARGE (resp. DISCHARGE) row in cycle 1, the capacity
    stored is the greatest [step_amp_hours] of those rows times 1000,
    rounded to 3 decimals, the specific capacity is that product
    divided by the mass, rounded to 1 decimal, and permuting the rows
    of the record changes nothing. *)
Theorem initial_capacity_greatest_permutation
    (df : DataFrame) (features : gmap string float64) (mass : float64) :
  ((∃ r, r ∈ df ∧ step_type r = "CHARGE" ∧ cycle r = 1) →
   ∃ m, greatest m (first_cycle "CHARGE" df)
     ∧ extract_initial_charge_capacity df features mass =
         Ok (<[key_specific_charge :=
                 round (div (mul m (of_Z 1000)) mass) 1]>
               (<[key_charge := round (mul m (of_Z 1000)) 3]> features))
     ∧ ∀ df', df' ≡ₚ df →
         extract_initial_charge_capacity df' features mass =
         extract_initial_charge_capacity df features mass)
  ∧
  ((∃ r, r ∈ df ∧ step_type r = "DISCHARGE" ∧ cycle r = 1) →
   ∃ m, greatest m (first_cycle "DISCHARGE" df)
     ∧ extract_initial_discharge_capacity df features mass =
         Ok (<[key_specific_discharge :=
                 round (div (mul m (of_Z 1000)) mass) 1]>
               (<[key_discharge := round (mul m (of_Z 1000)) 3]> features))
     ∧ ∀ df', df' ≡ₚ df →
         extract_initial_discharge_capacity df' features mass =
         extract_initial_discharge_capacity df features mass).
Proof.
  split; intros Hrow.
  - exists (series_max (first_cycle "CHARGE" df)).
    split; [apply series_max_greatest|]. split.
    + by apply extract_initial_charge_capacity_eq, first_cycle_nonempty.
    + intros df' Hp.
      assert (∃ r, r ∈ df' ∧ step_type r = "CHARGE" ∧ cycle r = 1) as Hrow'.
      { destruct Hrow as (r & Hin & Hr). exists r. by rewrite Hp. }
      rewrite !extract_initial_charge_capacity_eq
        by (by apply first_cycle_nonempty).
      cbn zeta.
      by rewrite (series_max_Permutation _ _
                    (first_cycle_Permutation "CHARGE" _ _ Hp)).
  - exists (series_max (first_cycle "DISCHARGE" df)).
    split; [apply series_max_greatest|]. split.
    + by apply extract_initial_discharge_capacity_eq, first_cycle_nonempty.
    + intros df' Hp.
      assert (∃ r, r ∈ df' ∧ step_type r = "DISCHARGE" ∧ cycle r = 1)
        as Hrow'.
      { destruct Hrow as (r & Hin & Hr). exists r. by rewrite Hp. }
      rewrite !extract_initial_discharge_capacity_eq
        by (by apply first_cycle_nonempty).
      cbn zeta.
      by rewrite (series_max_Permutation _ _
                    (first_cycle_Permutation "DISCHARGE" _ _ Hp)).
Qed.

Lemma initial_capacity_greatest_permutation_witness :
  (∃ m, greatest m (first_cycle "CHARGE" formation_df)
     ∧ extract_initial_charge_capacity formation_df ∅ (decimal 5 1) =
         Ok (<[key_specific_charge :=
                 round (div (mul m (of_Z 1000)) (decimal 5 1)) 1]>
               (<[key_charge := round (mul m (of_Z 1000)) 3]> ∅))
     ∧ ∀ df', df' ≡ₚ formation_df →
         extract_initial_charge_capacity df' ∅ (decimal 5 1) =
         extract_initial_charge_capacity formation_df ∅ (decimal 5 1))
  ∧ extract_initial_charge_capacity formation_df ∅ (decimal 5 1)
    = Ok {[ key_charge := of_Z 2; key_specific_charge := of_Z 4 ]}
  ∧ extract_initial_discharge_capacity (reverse formation_df) ∅ (decimal 5 1)
    = Ok {[ key_discharge := decimal 18 1;
            key_specific_discharge := decimal 36 1 ]}.
Proof.
  split_and!.
  - apply (initial_capacity_greatest_permutation formation_df ∅ (decimal 5 1)).
    exists (Row "CHARGE" 1 1 (decimal 38 1) (decimal 1 3)).
    split; [|done]. by_evaluation.
  - by_evaluation.
  - destruct (proj2 (initial_capacity_greatest_permutation
                       formation_df ∅ (decimal 5 1))) as (m & _ & _ & Hperm).
    + exists (Row "DISCHARGE" 2 1 (decimal 40 1) (decimal 9 4)).
      split; [|done]. by_evaluation.
    + rewrite (Hperm (reverse formation_df)) by apply reverse_Permutation.
      by_evaluation.
Defined.
End initial_capacity.

(* ================================================================== *)
(** ** Initial coulombic efficiency *)

Section coulombic_efficiency.
Import Features ExtractElectrochemicalFeatures Sample.

Lemma is_zero_true (q : Qc) : is_zero q = true ↔ q = 0%Qc.
Proof. apply bool_decide_eq_true. Qed.

Lemma is_zero_hundred : is_zero (Qc_of_Z 100) = false.
Proof. by_evaluation. Qed.

Lemma extract_initial_coulombic_efficiency_eq df features d c :
  features !! key_discharge = Some d → features !! key_charge = Some c →
  extract_initial_coulombic_efficiency df features =
    Ok (<[key_efficiency := round (mul (div d c) (of_Z 100)) 1]> features).
Proof.
  intros Hd Hc. unfold extract_initial_coulombic_efficiency, getitem.
  rewrite Hd. cbn. by rewrite Hc.
Qed.

Lemma zero_division_intro df mass :
  bool_decide (first_cycle "CHARGE" df = []) && zero mass = false →
  bool_decide (first_cycle "DISCHARGE" df = []) && zero mass = false →
  zero_division df mass = false.
Proof.
  unfold zero_division.
  destruct (zero mass), (bool_decide (first_cycle "CHARGE" df = [])),
    (bool_decide (first_cycle "DISCHARGE" df = [])); by cbn.
Qed.

Lemma zero_division_charge df mass :
  bool_decide (first_cycle "CHARGE" df = []) && zero mass = true →
  zero_division df mass = true.
Proof.
  unfold zero_division. intros [-> ->]%andb_true_iff. done.
Qed.

Lemma zero_division_discharge df mass :
  bool_decide (first_cycle "DISCHARGE" df = []) && zero mass = true →
  zero_division df mass = true.
Proof.
  unfold zero_division. intros [-> ->]%andb_true_iff.
  by rewrite orb_true_r.
Qed.

(** The four extractions of a formation file, in the order of the
    source: the voltage first, then the two capacities, whose division
    by the mass may raise, and the efficiency last, when both capacities
    are in the dict. *)
Lemma extract_formation_features_cases filename df mass :
  extract_formation_features filename (Some df) mass =
    v ← iloc_last (voltage <$> filter (λ r, step_type r = "REST"
                                            ∧ step_number r = 0) df);
    if zero_division df mass then Raise ZeroDivisionError
    else Ok (formation_features df mass v).
Proof.
  unfold extract_formation_features. cbn [subscript].
  cbn [mbind outcome_bind]. rewrite extract_ocv_rows.
  destruct (iloc_last _) as [v|e|code]; [|done..].
  cbn [mbind outcome_bind mret outcome_ret].
  rewrite extract_initial_charge_capacity_cases. cbn zeta.
  destruct (bool_decide (first_cycle "CHARGE" df = []) && zero mass) eqn:Hc.
  { by rewrite (zero_division_charge _ _ Hc). }
  cbn [mbind outcome_bind].
  rewrite extract_initial_discharge_capacity_cases. cbn zeta.
  destruct (bool_decide (first_cycle "DISCHARGE" df = []) && zero mass)
    eqn:Hd.
  { by rewrite (zero_division_discharge _ _ Hd). }
  cbn [mbind outcome_bind]. rewrite (zero_division_intro _ _ Hc Hd).
  by erewrite extract_initial_coulombic_efficiency_eq by (by simplify_map_eq).
Qed.

Lemma extract_formation_features_eq filename df mass v :
  iloc_last (voltage <$> filter (λ r, step_type r = "REST"
                                      ∧ step_number r = 0) df) = Ok v →
  zero_division df mass = false →
  extract_formation_features filename (Some df) mass
  = Ok (formation_features df mass v).
Proof.
  intros Hv Hz. by rewrite extract_formation_features_cases, Hv, Hz.
Qed.



End coulombic_efficiency.

(* ================================================================== *)
(** ** Capacities per cycle *)

Section per_cycle.
Import Features Sample.

Lemma filter_eq_NoDup (keys : list Z) (c : Z) :
  NoDup keys →
  filter (λ k, k = c) keys = if decide (c ∈ keys) then [c] else [].
Proof.
  induction 1 as [|k keys Hk Hnd IH]; [done|].
  rewrite filter_cons, IH.
  destruct (decide (k = c)) as [->|Hne], (decide (c ∈ keys)) as [Hin|Hin];
    try done.
  - by rewrite decide_True by left.
  - by rewrite decide_True by (by right).
  - rewrite decide_False; [done|]. by intros [?|?]%elem_of_cons.
Qed.

Lemma select_group (M : Z → float64) (keys : list Z) (c : Z) :
  1 < c →
  snd <$> filter (λ g, bool_decide (g.1 = c) = true)
            (filter (λ g, bool_decide (1 < g.1) = true)
               ((λ k, (k, M k)) <$> keys))
  = M <$> filter (λ k, k = c) keys.
Proof.
  intros Hc. induction keys as [|k keys IH]; [done|].
  rewrite fmap_cons, !filter_cons. cbn [fst].
  destruct (decide (k = c)) as [->|Hne].
  - rewrite decide_True by (by apply bool_decide_eq_true_2).
    rewrite filter_cons. cbn [fst].
    rewrite decide_True by (by apply bool_decide_eq_true_2).
    by rewrite !fmap_cons, IH.
  - destruct (decide (bool_decide (1 < k) = true)); [|done].
    rewrite filter_cons. cbn [fst].
    by rewrite decide_False by (by rewrite bool_decide_eq_true).
Qed.

(** What [cycle_capacity] finds in the grouped table is the maximum
    over the DISCHARGE rows of the cycle, NaN when there is none. *)
Lemma cycle_capacity_spec (df : DataFrame) (c : Z) :
  1 < c →
  cycle_capacity (discharge_by_cycle df) c = series_max (discharge_of c df).
Proof.
  intros Hc. unfold cycle_capacity, discharge_by_cycle, groupby_cycle_max.
  rewrite !mask_fmap. unfold step_type_is. rewrite mask_fmap.
  set (D := filter (λ r, bool_decide (step_type r = "DISCHARGE") = true) df).
  set (keys := merge_sort Z.le (remove_dups (cycle <$> D))).
  rewrite (select_group
             (λ k, series_max (step_amp_hours <$>
                                 filter (λ r, cycle r = k) D)) keys c Hc).
  assert (NoDup keys) as Hnd.
  { unfold keys. rewrite merge_sort_Permutation. apply NoDup_remove_dups. }
  assert (filter (λ r, cycle r = c) D
          = filter (λ r, step_type r = "DISCHARGE" ∧ cycle r = c) df) as HD.
  { unfold D. rewrite list_filter_filter. apply list_filter_iff.
    intros r. rewrite bool_decide_eq_true. tauto. }
  rewrite (filter_eq_NoDup keys c Hnd).
  destruct (decide (c ∈ keys)) as [Hin|Hin].
  - cbn [fmap list_fmap]. rewrite series_max_singleton.
    unfold discharge_of. by rewrite HD.
  - unfold discharge_of. rewrite <- HD.
    assert (filter (λ r, cycle r = c) D = []) as ->; [|done].
    destruct (filter (λ r, cycle r = c) D) as [|r l] eqn:E; [done|].
    exfalso. apply Hin.
    assert (r ∈ filter (λ r, cycle r = c) D) as Hr by (rewrite E; left).
    apply list_elem_of_filter in Hr as [<- Hr].
    unfold keys. rewrite merge_sort_Permutation, elem_of_remove_dups.
    by apply list_elem_of_fmap_2.
Qed.

Lemma discharge_of_nil (df : DataFrame) (c : Z) :
  (∀ r, r ∈ df → step_type r = "DISCHARGE" → cycle r ≠ c) →
  discharge_of c df = [].
Proof.
  intros Hno. unfold discharge_of.
  assert (filter (λ r, step_type r = "DISCHARGE" ∧ cycle r = c) df = [])
    as ->; [|done].
  induction df as [|r df IH]; [done|].
  rewrite filter_cons, IH by (intros; apply Hno; [by right|done]).
  rewrite decide_False; [done|].
  intros [??]. by eapply Hno; [left|..].
Qed.

(** The keys of two cycles differ. *)
Lemma length_append (s t : string) :
  String.length (s +:+ t) = (String.length s + String.length t)%nat.
Proof.
  induction s as [|a s IH]; [done|].
  change (S (String.length (s +:+ t))
          = S (String.length s + String.length t)).
  by rewrite IH.
Qed.

Lemma append_inj_r (s t1 t2 : string) : s +:+ t1 = s +:+ t2 → t1 = t2.
Proof. apply String.app_inj. Qed.

Lemma append_inj_l (s1 s2 t : string) : s1 +:+ t = s2 +:+ t → s1 = s2.
Proof.
  revert s2. induction s1 as [|a s1 IH]; intros [|b s2] Heq.
  - done.
  - exfalso. apply (f_equal String.length) in Heq.
    rewrite !length_append in Heq. simpl in Heq. lia.
  - exfalso. apply (f_equal String.length) in Heq.
    rewrite !length_append in Heq. simpl in Heq. lia.
  - simpl in Heq. injection Heq as -> Heq. f_equal. by apply IH.
Qed.

Lemma key_retention_inj (m n : Z) : key_retention m = key_retention n → m = n.
Proof.
  unfold key_retention. intros Heq%append_inj_r%append_inj_l.
  by apply (inj pretty).
Qed.

Lemma key_difference_inj (m n : Z) :
  key_difference m = key_difference n → m = n.
Proof.
  unfold key_difference. intros Heq%append_inj_r%append_inj_l.
  by apply (inj pretty).
Qed.

(** A loop that stores [g c] under [k c] for each [c] leaves [g n]
    under [k n] for every [n] it went through. *)
Lemma foldl_insert_lookup (k : Z → string) (g : Z → float64)
    (features : gmap string float64) (cycles : list Z) (n : Z) :
  (∀ m, k m = k n → m = n) → n ∈ cycles →
  foldl (λ features c, <[k c := g c]> features) features cycles !! k n
  = Some (g n).
Proof.
  intros Hinj. induction cycles as [|c cycles IH] using rev_ind.
  - by intros ?%elem_of_nil.
  - intros Hin. rewrite foldl_snoc.
    destruct (decide (c = n)) as [->|Hne].
    + by rewrite lookup_insert_eq.
    + rewrite lookup_insert_ne by (intros ?%Hinj; done).
      apply IH. apply elem_of_app in Hin as [?|Hin]; [done|].
      by apply list_elem_of_singleton in Hin.
Qed.
End per_cycle.

(* ================================================================== *)
(** ** Retention of a cycle without discharge rows *)

Section retention.
Import Features Sample.

Lemma extract_capacities_for_cycles_KeyError df features cycles :
  features !! key_discharge = None →
  extract_capacities_for_cycles df features cycles
  = Raise (KeyError key_discharge).
Proof.
  intros Hnone. unfold extract_capacities_for_cycles, getitem.
  by rewrite Hnone.
Qed.

(** C2 (counterexample).  Cycle 5 of [cycling_df] has no DISCHARGE
    row, and after the extraction for the cycles [5] the key
    "Retention Cycle 5 (%)" is in the dict, bound to NaN. *)
Lemma retention_key_of_missing_cycle_present :
  Forall (λ r, step_type r = "DISCHARGE" → cycle r ≠ 5) cycling_df
  ∧ ∃ features',
      extract_capacities_for_cycles cycling_df
        {[ key_discharge := decimal 18 1 ]} [5] = Ok features'
      ∧ features' !! key_retention 5 = Some NaN
      ∧ features' !! key_retention 5 ≠ None.
Proof.
  split; [by_evaluation|].
  eexists. split; [reflexivity|]. split; by_evaluation.
Qed.

(** C2 (amended).  When the dict holds the initial discharge capacity,
    the extraction returns, and for every requested cycle [n > 1]
    without DISCHARGE rows the key "Retention Cycle n (%)" is present
    and bound to NaN. *)
Theorem retention_of_missing_cycle_is_nan
    (df : DataFrame) (features : gmap string float64) (cycles : list Z)
    (n : Z) (v : float64) :
  features !! key_discharge = Some v →
  1 < n →
  n ∈ cycles →
  (∀ r, r ∈ df → step_type r = "DISCHARGE" → cycle r ≠ n) →
  ∃ features',
    extract_capacities_for_cycles df features cycles = Ok features'
    ∧ features' !! key_retention n = Some NaN.
Proof.
  intros Hv Hn Hin Hno. unfold extract_capacities_for_cycles, getitem.
  rewrite Hv. cbn [mbind outcome_bind mret outcome_ret].
  eexists. split; [reflexivity|].
  rewrite (foldl_insert_lookup key_retention
             (λ c, round (div (mul (cycle_capacity (discharge_by_cycle df) c)
                                 (of_Z 100))
                            (div v (of_Z 1000))) 1)
             features cycles n); [|intros m; apply key_retention_inj|done].
  cbn beta. rewrite cycle_capacity_spec by done.
  by rewrite discharge_of_nil.
Qed.

Lemma retention_of_missing_cycle_is_nan_witness :
  ∃ features',
    extract_capacities_for_cycles cycling_df
      {[ key_discharge := decimal 18 1 ]} [2; 5] = Ok features'
    ∧ features' !! key_retention 5 = Some NaN.
Proof.
  apply (retention_of_missing_cycle_is_nan cycling_df
           {[ key_discharge := decimal 18 1 ]} [2; 5] 5 (decimal 18 1)).
  - by_evaluation.
  - lia.
  - by_evaluation.
  - apply (proj1 (Forall_forall
                    (λ r, step_type r = "DISCHARGE" → cycle r ≠ 5)
                    cycling_df)).
    by_evaluation.
Defined.
End retention.

(* ================================================================== *)
(** ** Drift between consecutive cycles *)

Section drift.
Import Features Sample.

Lemma foldl_difference_step_snoc dd st cycles c :
  foldl (difference_step dd) st (cycles ++ [c])
  = (<[key_difference c :=
         drift (cycle_capacity dd c)
               (foldl (difference_step dd) st cycles).2]>
       (foldl (difference_step dd) st cycles).1,
     cycle_capacity dd c).
Proof.
  rewrite foldl_snoc.
  by destruct (foldl (difference_step dd) st cycles) as [f prev].
Qed.

(** The baseline of the last requested cycle is the capacity of the
    cycle requested just before it, wherever the list started. *)
Lemma drift_baseline_is_previous df features cycles p c :
  ∃ features',
    extract_discharge_capacity_difference df features (cycles ++ [p; c])
    = Ok features'
    ∧ features' !! key_difference c
      = Some (drift (cycle_capacity (discharge_by_cycle df) c)
                    (cycle_capacity (discharge_by_cycle df) p)).
Proof.
  unfold extract_discharge_capacity_difference.
  eexists. split; [reflexivity|].
  change (cycles ++ [p; c]) with (cycles ++ [p] ++ [c]).
  rewrite app_assoc, foldl_difference_step_snoc. cbn [fst].
  rewrite lookup_insert_eq. by rewrite foldl_difference_step_snoc.
Qed.

(** C3.  For a record whose greatest discharge capacities are 10, 9
    and 9.5 in cycles 2, 3 and 4, and the cycles [2; 3; 4] requested in
    that order, the value stored for cycle 3 is -10.0 and the one for
    cycle 4 is (9.5 - 9) / (9 / 100) rounded to 3 decimals, 5.556: the
    baseline is the capacity of cycle 3, not the one of cycle 2, which
    would have given -5.0. *)
Theorem drift_is_running
    (df : DataFrame) (features : gmap string float64) :
  series_max (discharge_of 2 df) = of_Z 10 →
  series_max (discharge_of 3 df) = of_Z 9 →
  series_max (discharge_of 4 df) = decimal 95 1 →
  ∃ features',
    extract_discharge_capacity_difference df features [2; 3; 4]
    = Ok features'
    ∧ features' !! key_difference 3 = Some (of_Z (-10))
    ∧ features' !! key_difference 4
      = Some (round (div (sub (decimal 95 1) (of_Z 9))
                       (div (of_Z 9) (of_Z 100))) 3)
    ∧ round (div (sub (decimal 95 1) (of_Z 9))
               (div (of_Z 9) (of_Z 100))) 3 = decimal 5556 3
    ∧ round (div (sub (decimal 95 1) (of_Z 10))
               (div (of_Z 10) (of_Z 100))) 3 = of_Z (-5).
Proof.
  intros H2 H3 H4. unfold extract_discharge_capacity_difference.
  eexists. split; [reflexivity|].
  cbn [foldl difference_step fst].
  rewrite !cycle_capacity_spec by lia. rewrite H2, H3, H4.
  split_and!.
  - rewrite lookup_insert_ne by (by intros ?%key_difference_inj).
    rewrite lookup_insert_eq. f_equal. by_evaluation.
  - by rewrite lookup_insert_eq.
  - by_evaluation.
  - by_evaluation.
Qed.

Lemma drift_is_running_witness :
  ∃ features',
    extract_discharge_capacity_difference cycling_df ∅ [2; 3; 4]
    = Ok features'
    ∧ features' !! key_difference 3 = Some (of_Z (-10))
    ∧ features' !! key_difference 4
      = Some (round (div (sub (decimal 95 1) (of_Z 9))
                       (div (of_Z 9) (of_Z 100))) 3)
    ∧ round (div (sub (decimal 95 1) (of_Z 9))
               (div (of_Z 9) (of_Z 100))) 3 = decimal 5556 3
    ∧ round (div (sub (decimal 95 1) (of_Z 10))
               (div (of_Z 10) (of_Z 100))) 3 = of_Z (-5).
Proof.
  apply (drift_is_running cycling_df ∅); by_evaluation.
Defined.
End drift.

(* ================================================================== *)
(** ** Protocol of a file name *)

Section protocol.
Import Str CamBiologicDataImport.

(** C6.  A file name with the markers "Formation-Capacity-Check" and
    "Formation", and neither "Life" nor "OCV", is classified 'FC', not
    'F'; the cycle-life marker is looked for before both, and 'F' is
    the answer only when "Formation-Capacity-Check" is not there. *)
Theorem formation_capacity_check_before_formation
    (filename : string) (stdin : list string) :
  contains "Formation-Capacity-Check" filename = true →
  contains "Formation" filename = true →
  contains "Life" filename = false →
  contains "OCV" filename = false →
  get_protocol_type filename stdin = (Ok "FC", stdin)
  ∧ get_protocol_type filename stdin ≠ (Ok "F", stdin)
  ∧ (∀ other, contains "OCV" other = false →
              contains "Life" other = true →
              get_protocol_type other stdin = (Ok "CL", stdin))
  ∧ (∀ other, contains "OCV" other = false →
              contains "Life" other = false →
              contains "Formation-Capacity-Check" other = false →
              contains "Formation" other = true →
              get_protocol_type other stdin = (Ok "F", stdin)).
Proof.
  intros Hfc Hf Hlife Hocv. unfold get_protocol_type.
  rewrite Hocv, Hlife, Hfc. split_and!; try done.
  - intros other -> ->. done.
  - intros other -> -> -> ->. done.
Qed.

Lemma formation_capacity_check_before_formation_witness :
  get_protocol_type "QCL-123-A-Formation-Capacity-Check-..." []
  = (Ok "FC", []).
Proof.
  apply (formation_capacity_check_before_formation
           "QCL-123-A-Formation-Capacity-Check-..." []); reflexivity.
Defined.
End protocol.

(* ================================================================== *)
(** ** Mass and sample ID of a file name *)

Section identity.
Import Str CamBiologicDataImport Main Sample.

(** C10.  Without a second token between underscores, or with one
    that [float] does not accept, the mass is exactly 1.0; with one
    that [float] accepts, it is the number [float] returns.  The
    function is total: no exception reaches its caller. *)
Theorem mass_defaults_to_one `{Runtime} (filename : string) :
  (split "_" filename !! 1%nat = None
   ∨ (∃ token, split "_" filename !! 1%nat = Some token
               ∧ ∀ mass, float token ≠ Ok mass) →
   extract_mass_from_filename filename = of_Z 1)
  ∧ (∀ token mass,
       split "_" filename !! 1%nat = Some token →
       float token = Ok mass →
       extract_mass_from_filename filename = mass).
Proof.
  unfold extract_mass_from_filename, index. split.
  - intros [->|(token & -> & Hbad)]; [done|].
    cbn [mbind outcome_bind].
    destruct (float token) as [mass| |] eqn:E; [|done..].
    by destruct (Hbad mass).
  - intros token mass -> Hok. cbn [mbind outcome_bind]. by rewrite Hok.
Qed.

Lemma mass_defaults_to_one_witness :
  @extract_mass_from_filename runtime "QCL-123-CC-01" = of_Z 1
  ∧ @extract_mass_from_filename runtime "QCL-123-CC-01_abc_Formation" = of_Z 1
  ∧ @extract_mass_from_filename runtime "QCL-123-CC-01_0.5_Formation"
    = decimal 5 1.
Proof.
  split_and!.
  - apply (@mass_defaults_to_one runtime "QCL-123-CC-01"). by left.
  - apply (@mass_defaults_to_one runtime "QCL-123-CC-01_abc_Formation").
    right. exists "abc". split; [reflexivity|]. by intros mass.
  - apply (proj2 (@mass_defaults_to_one runtime
                    "QCL-123-CC-01_0.5_Formation") "0.5");
      [reflexivity|by_evaluation].
Defined.

Lemma join_groups_differs (g : string * string) :
  group0 g ≠ join_groups "-" g.
Proof.
  unfold group0, join_groups. intros Heq%String.app_inj.
  apply (f_equal String.length) in Heq.
  rewrite length_append in Heq. simpl in Heq. lia.
Qed.

(** C9 (the code departs from the claim).  For a single file name that
    the primary pattern matches, [process_filenames_CC] returns the
    text matched, the two groups one after the other, which is never
    the two groups joined with '-'; the joined text is what the list
    branch returns. *)
Theorem single_filename_returns_whole_match
    (filename : string) (g : string * string) :
  re_match_CC filename = Some g →
  process_filenames_CC (Single filename) = One (Some (g.1 +:+ g.2))
  ∧ process_filenames_CC (Single filename)
    ≠ One (Some (join_groups "-" g))
  ∧ process_filenames_CC (Several [filename]) = Many [join_groups "-" g].
Proof.
  intros Hg. unfold process_filenames_CC. cbn [omap list_omap].
  rewrite Hg. split_and!; [done| |done].
  intros Heq. injection Heq as Heq. by apply (join_groups_differs g).
Qed.

Lemma single_filename_returns_whole_match_witness :
  process_filenames_CC (Single "QCL-123-CC-01_0.5_Formation")
  = One (Some "QCL-123-CC-01")
  ∧ process_filenames_CC (Single "QCL-123-CC-01_0.5_Formation")
    ≠ One (Some "QCL-123--CC-01")
  ∧ process_filenames_CC (Several ["QCL-123-CC-01_0.5_Formation"])
    = Many ["QCL-123--CC-01"].
Proof.
  apply (single_filename_returns_whole_match
           "QCL-123-CC-01_0.5_Formation" ("QCL-123-", "CC-01")).
  reflexivity.
Defined.

(** The rest of the resolution is as described: the second pattern is
    tried when the first fails, and a name without "-CC" raises. *)
Lemma resolve_sample_ID_fallback (filename : string) :
  re_match_CC filename = None →
  resolve_sample_ID filename = findall_first filename.
Proof.
  intros Hnone. unfold resolve_sample_ID, process_filenames_CC.
  by rewrite Hnone.
Qed.

Lemma lazy_until_CC_None (s : string) :
  contains "-CC" s = false → lazy_until_CC s = None.
Proof.
  induction s as [|c s IH]; [done|].
  intros Hc. cbn [contains] in Hc. cbn [lazy_until_CC].
  destruct (String.prefix "-CC" (String c s)); [done|].
  destruct (Ascii.eqb c newline); [done|]. by rewrite IH.
Qed.

Lemma findall_first_IndexError (s : string) :
  contains "-CC" s = false → findall_first s = Raise IndexError.
Proof.
  induction s as [|c s IH]; [done|].
  intros Hc. cbn [findall_first]. rewrite lazy_until_CC_None by done.
  cbn [contains] in Hc.
  destruct (String.prefix "-CC" (String c s)); [done|]. by apply IH.
Qed.

Lemma findall_first_Ok (s : string) :
  contains "-CC" s = true → ∃ sample_ID, findall_first s = Ok sample_ID.
Proof.
  induction s as [|c s IH]; [done|].
  intros Hc. cbn [findall_first].
  destruct (lazy_until_CC (String c s)) as [g|] eqn:E; [by eexists|].
  cbn [contains] in Hc. cbn [lazy_until_CC] in E.
  destruct (String.prefix "-CC" (String c s)); [done|]. by apply IH.
Qed.
End identity.

(* ================================================================== *)
(** ** The loop over the files *)

Section cycle_life_features.
Import Features ExtractElectrochemicalFeatures.

(** Once the table is there, the cycle-life extractions can only raise
    in the division by the mass: both capacities are stored before the
    retention reads the initial discharge capacity. *)
Lemma extract_qc_cycle_life_features_cases filename df mass :
  extract_qc_cycle_life_features filename (Some df) mass
  = if zero_division df mass then Raise ZeroDivisionError
    else Ok (qc_features df mass).
Proof.
  unfold extract_qc_cycle_life_features. cbn [subscript mbind outcome_bind].
  rewrite extract_initial_charge_capacity_cases. cbn zeta.
  destruct (bool_decide (first_cycle "CHARGE" df = []) && zero mass) eqn:Hc.
  { by rewrite (zero_division_charge _ _ Hc). }
  cbn [mbind outcome_bind].
  rewrite extract_initial_discharge_capacity_cases. cbn zeta.
  destruct (bool_decide (first_cycle "DISCHARGE" df = []) && zero mass)
    eqn:Hd.
  { by rewrite (zero_division_discharge _ _ Hd). }
  cbn [mbind outcome_bind]. rewrite (zero_division_intro _ _ Hc Hd).
  unfold extract_capacities_for_cycles, getitem.
  rewrite lookup_insert_ne by done. by rewrite lookup_insert_eq.
Qed.

Lemma extract_all_cycle_life_features_cases filename df mass :
  extract_all_cycle_life_features filename (Some df) mass
  = if zero_division df mass then Raise ZeroDivisionError
    else Ok (detail_features df mass).
Proof.
  unfold extract_all_cycle_life_features. cbn [subscript mbind outcome_bind].
  rewrite extract_initial_charge_capacity_cases. cbn zeta.
  destruct (bool_decide (first_cycle "CHARGE" df = []) && zero mass) eqn:Hc.
  { by rewrite (zero_division_charge _ _ Hc). }
  cbn [mbind outcome_bind].
  rewrite extract_initial_discharge_capacity_cases. cbn zeta.
  destruct (bool_decide (first_cycle "DISCHARGE" df = []) && zero mass)
    eqn:Hd.
  { by rewrite (zero_division_discharge _ _ Hd). }
  cbn [mbind outcome_bind]. rewrite (zero_division_intro _ _ Hc Hd).
  unfold extract_capacities_for_cycles, getitem.
  rewrite lookup_insert_ne by done. by rewrite lookup_insert_eq.
Qed.

Lemma extract_qc_cycle_life_features_Some filename df mass :
  zero_division df mass = false →
  extract_qc_cycle_life_features filename (Some df) mass
  = Ok (qc_features df mass).
Proof. intros Hz. by rewrite extract_qc_cycle_life_features_cases, Hz. Qed.

Lemma extract_all_cycle_life_features_Some filename df mass :
  zero_division df mass = false →
  extract_all_cycle_life_features filename (Some df) mass
  = Ok (detail_features df mass).
Proof. intros Hz. by rewrite extract_all_cycle_life_features_cases, Hz. Qed.

Lemma extract_cycle_life_features_None filename mass :
  extract_qc_cycle_life_features filename None mass = Raise TypeError
  ∧ extract_all_cycle_life_features filename None mass = Raise TypeError
  ∧ extract_formation_features filename None mass = Raise TypeError.
Proof. done. Qed.
End cycle_life_features.

(* ================================================================== *)
(** ** The stem of a path occurs in the path *)

Section substrings.
Import Str Main.

Lemma append_cons (x : ascii) (a b : string) :
  String x a +:+ b = String x (a +:+ b).
Proof. reflexivity. Qed.

Lemma append_nil_l (a : string) : "" +:+ a = a.
Proof. reflexivity. Qed.

Lemma append_assoc (a b c : string) : (a +:+ b) +:+ c = a +:+ (b +:+ c).
Proof.
  induction a as [|x a IH]; [done|]. by rewrite !append_cons, IH.
Qed.

Lemma append_nil_r (a : string) : a +:+ "" = a.
Proof. induction a as [|x a IH]; [done|]. by rewrite append_cons, IH. Qed.

Lemma prefix_spec (p s : string) :
  String.prefix p s = true ↔ ∃ post, s = p +:+ post.
Proof.
  revert s. induction p as [|x p IH]; intros s.
  - split; [|by destruct s]. intros _. by exists s.
  - destruct s as [|y s]; simpl.
    + split; [done|]. intros [post Hpost]. by rewrite append_cons in Hpost.
    + destruct (ascii_dec x y) as [->|Hne].
      * rewrite IH. setoid_rewrite append_cons.
        split; intros [post Hpost]; exists post; congruence.
      * split; [done|]. intros [post Hpost].
        rewrite append_cons in Hpost. congruence.
Qed.

Lemma contains_spec (sub s : string) : contains sub s = true ↔ infix sub s.
Proof.
  induction s as [|c s IH]; cbn [contains].
  - destruct (String.prefix sub "") eqn:E.
    + split; [|done]. intros _. apply prefix_spec in E as [post E].
      by exists "", post.
    + split; [done|]. intros (pre & post & Heq).
      destruct pre; [|by rewrite append_cons in Heq].
      rewrite append_nil_l in Heq.
      assert (String.prefix sub "" = true) as E'
        by (apply prefix_spec; by exists post).
      congruence.
  - destruct (String.prefix sub (String c s)) eqn:E.
    + split; [|done]. intros _. apply prefix_spec in E as [post E].
      by exists "", post.
    + rewrite IH. split.
      * intros (pre & post & ->). by exists (String c pre), post.
      * intros (pre & post & Heq). destruct pre as [|d pre].
        -- rewrite append_nil_l in Heq.
           assert (String.prefix sub (String c s) = true) as E'
             by (apply prefix_spec; by exists post).
           congruence.
        -- rewrite append_cons in Heq. injection Heq as -> ->.
           by exists pre, post.
Qed.

Lemma infix_refl (s : string) : infix s s.
Proof. exists "", "". by rewrite append_nil_l, append_nil_r. Qed.

Lemma infix_nil (s : string) : infix "" s.
Proof. by exists "", s. Qed.

Lemma infix_trans (a b c : string) : infix a b → infix b c → infix a c.
Proof.
  intros (p1 & q1 & ->) (p2 & q2 & ->).
  exists (p2 +:+ p1), (q1 +:+ q2). by rewrite !append_assoc.
Qed.

Lemma infix_cons (c : ascii) (t s : string) : infix t s → infix t (String c s).
Proof. intros (pre & post & ->). by exists (String c pre), post. Qed.

Lemma split_infix (sep : ascii) (s : string) :
  ∃ t ts, split sep s = t :: ts
    ∧ (∃ post, s = t +:+ post) ∧ ∀ u, u ∈ ts → infix u s.
Proof.
  induction s as [|c s (t & ts & Hsplit & [post Hpost] & Hts)].
  - exists "", []. split; [done|]. split; [by exists ""|].
    by intros u ?%elem_of_nil.
  - cbn [split]. rewrite Hsplit. destruct (Ascii.eqb c sep).
    + exists "", (t :: ts). split; [done|]. split; [by eexists|].
      intros u [->|Hu]%elem_of_cons; apply infix_cons.
      * exists "", post. by rewrite Hpost at 1.
      * by apply Hts.
    + exists (String c t), ts. split; [done|]. split.
      * exists post. rewrite append_cons. by rewrite Hpost at 1.
      * intros u Hu. by apply infix_cons, Hts.
Qed.

Lemma split_elem_infix (sep : ascii) (s u : string) :
  u ∈ split sep s → infix u s.
Proof.
  destruct (split_infix sep s) as (t & ts & -> & [post Hpost] & Hts).
  intros [->|Hu]%elem_of_cons; [|by apply Hts].
  exists "", post. by rewrite Hpost at 1.
Qed.

Lemma substring_prefix (m : nat) (s : string) :
  ∃ post, s = substring 0 m s +:+ post.
Proof.
  revert s. induction m as [|m IH]; intros s.
  - exists s. by destruct s.
  - destruct s as [|c s]; [by exists ""|].
    destruct (IH s) as [post Hpost]. exists post.
    cbn [substring]. rewrite append_cons. by rewrite Hpost at 1.
Qed.

Lemma name_infix (path : string) : infix (name path) path.
Proof.
  unfold name.
  destruct (last (filter (λ part, part ≠ "" ∧ part ≠ ".")
                         (split "/" path))) as [part|] eqn:E.
  - apply last_Some_elem_of, list_elem_of_filter in E as [_ E].
    by apply split_elem_infix in E.
  - apply infix_nil.
Qed.

Lemma stem_infix (path : string) : infix (stem path) path.
Proof.
  unfold stem. apply (infix_trans _ (name path)); [|apply name_infix].
  destruct (rfind "." (name path)) as [i|]; [|apply infix_refl].
  destruct (_ && _); [|apply infix_refl].
  destruct (substring_prefix i (name path)) as [post Hpost].
  exists "", post. by rewrite append_nil_l.
Qed.

Lemma contains_stem (sub path : string) :
  contains sub (stem path) = true → contains sub path = true.
Proof.
  rewrite !contains_spec. intros Hsub.
  eapply infix_trans; [done|apply stem_infix].
Qed.
End substrings.


(* ================================================================== *)
(** ** One turn of the loop *)

Section loop_body.
Import Str Features CamBiologicDataImport ExtractElectrochemicalFeatures Main.
Context `{Runtime}.

Lemma get_protocol_type_cases filename stdin :
  contains "OCV" filename = false →
  Forall recognised stdin →
  ∃ r stdin', get_protocol_type filename stdin = (r, stdin')
    ∧ Forall recognised stdin'
    ∧ match r with
      | Ok p => recognised p
      | Raise _ => True
      | SystemExit _ => False
      end.
Proof.
  intros Hocv Hin. unfold get_protocol_type. rewrite Hocv.
  destruct (contains "Life" filename).
  { eexists _, _. split_and!; [done..|]. unfold recognised. by_evaluation. }
  destruct (contains "Formation-Capacity-Check" filename).
  { eexists _, _. split_and!; [done..|]. unfold recognised. by_evaluation. }
  destruct (contains "Formation" filename).
  { eexists _, _. split_and!; [done..|]. unfold recognised. by_evaluation. }
  destruct Hin as [|answer stdin Hanswer Hin]; cbn [input log_and_reraise].
  - by eexists _, _.
  - by eexists _, _.
Qed.

Lemma extract_formation_features_no_exit filename cloud_data_df mass code :
  extract_formation_features filename cloud_data_df mass ≠ SystemExit code.
Proof.
  destruct cloud_data_df as [df|]; [|done].
  rewrite extract_formation_features_cases. unfold iloc_last.
  destruct (last _); cbn [mbind outcome_bind]; [|done].
  by destruct (zero_division df mass).
Qed.

Lemma recognised_cases p :
  recognised p →
  bool_decide (p ∈ ["F"; "FC"]) = true
  ∨ (bool_decide (p ∈ ["F"; "FC"]) = false ∧ p = "CL").
Proof.
  unfold recognised. rewrite !elem_of_cons, elem_of_nil.
  intros [->|[->|[->|[]]]]; [by left..|by right].
Qed.

(** A file without the OCV marker, with recognised answers waiting on the
    standard input: either the turn ends normally, and then one row, one
    sample ID and one [Finished] record were added, or it raises, and then
    the two tables and the list of IDs are as they were. *)
Lemma process_file_spec path s :
  contains "OCV" (stem path) = false →
  Forall recognised (stdin s) →
  ∃ s' r, process_file (Some path) s = (s', r)
    ∧ filename s' = Some (stem path)
    ∧ Forall recognised (stdin s')
    ∧ match r with
      | Ok _ =>
          ∃ sample_ID protocol_type features,
            resolve_sample_ID (stem path) = Ok sample_ID
            ∧ recognised protocol_type
            ∧ summary_row path protocol_type = Ok features
            ∧ qc_sample_summary s' = qc_sample_summary s ++ [features]
            ∧ sample_ID_list s' = sample_ID_list s ++ [sample_ID]
            ∧ log s' = log s ++ [Finished (stem path)]
      | Raise e =>
          qc_sample_summary s' = qc_sample_summary s
          ∧ sample_ID_list s' = sample_ID_list s
          ∧ log s' = log s
      | SystemExit _ => False
      end.
Proof.
  intros Hocv Hin.
  unfold process_file.
  unfold mbind, M_bind, modify, lift, classify. cbn [set_filename stdin].
  destruct (resolve_sample_ID (stem path)) as [sample_ID|e|c] eqn:Hid.
  - destruct (get_protocol_type_cases _ _ Hocv Hin) as (r & stdin' & -> & Hin' & Hr).
    destruct r as [p|e|c]; [|by eexists _, _|done].
    destruct (recognised_cases p Hr) as [Hf|[Hf ->]]; rewrite Hf.
    + destruct (extract_formation_features (stem path)
                  (convert_file_to_cloud path)
                  (extract_mass_from_filename (stem path)))
        as [features|e|c] eqn:Hx.
      * eexists _, _. split; [reflexivity|]. split_and!; [done..|].
        exists sample_ID, p, features. split_and!; try done.
        unfold summary_row. by rewrite Hf.
      * by eexists _, _.
      * by apply extract_formation_features_no_exit in Hx.
    + rewrite bool_decide_eq_true_2 by done.
      destruct (convert_file_to_cloud path) as [df|] eqn:Hdf.
      * rewrite extract_qc_cycle_life_features_cases,
          extract_all_cycle_life_features_cases.
        destruct (zero_division df (extract_mass_from_filename (stem path)))
          eqn:Hz; [by eexists _, _|].
        eexists _, _. split; [reflexivity|]. split_and!; [done..|].
        exists sample_ID, "CL",
          (qc_features df (extract_mass_from_filename (stem path))).
        split_and!; try done.
        unfold summary_row.
        by rewrite Hf, Hdf, extract_qc_cycle_life_features_cases, Hz.
      * by eexists _, _.
  - by eexists _, _.
  - exfalso. unfold resolve_sample_ID in Hid.
    destruct (process_filenames_CC (Single (stem path))) as [[?|]|?];
      try done; clear -Hid.
    all: induction (stem path) as [|a f IH]; cbn [findall_first] in Hid;
      [done|]; destruct (lazy_until_CC _); [done|]; by apply IH.
Qed.
End loop_body.


(* ================================================================== *)
(** ** The whole loop *)

Section loop.
Import Str Features CamBiologicDataImport ExtractElectrochemicalFeatures Main.
Context `{Runtime}.

Lemma skipped_logging_Error s f e :
  skipped (logging (Error f e) s) = skipped s ++ [Error f e].
Proof. unfold skipped. cbn [log logging]. by rewrite filter_app. Qed.

(** With recognised protocol codes only, rows and sample IDs advance
    together: the files that did not raise, in the order of the batch,
    each gave its own ID and its own row, and every other file left one
    error record. *)
Lemma file_loop_lockstep (paths : list string) (s : state) :
  Forall (λ p, contains "OCV" (stem p) = false) paths →
  Forall recognised (stdin s) →
  ∃ s' (processed : list (string * string)) rows ids,
    file_loop (Some <$> paths) s = Ok s'
    ∧ processed.*1 `sublist_of` paths
    ∧ qc_sample_summary s' = qc_sample_summary s ++ rows
    ∧ sample_ID_list s' = sample_ID_list s ++ ids
    ∧ Forall2 (λ d id, resolve_sample_ID (stem d.1) = Ok id) processed ids
    ∧ Forall2 (λ d row, recognised d.2 ∧ summary_row d.1 d.2 = Ok row)
        processed rows
    ∧ (length (skipped s') + length processed
       = length (skipped s) + length paths)%nat.
Proof.
  intros Hocv. revert s.
  induction Hocv as [|path paths Hpath Hocv IH]; intros s Hin.
  { exists s, [], [], []. rewrite !app_nil_r. by split_and!. }
  destruct (process_file_spec path s Hpath Hin)
    as (s1 & r & Hrun & Hfile & Hin1 & Hr).
  rewrite fmap_cons. cbn [file_loop]. rewrite Hrun.
  destruct r as [[]|e|c]; [| |done].
  - destruct Hr as (sample_ID & p & features & Hid & Hp & Hrow
                    & Hqc & Hids & Hlog).
    destruct (IH s1 Hin1)
      as (s' & processed & rows & ids & -> & Hsub & Hqc' & Hids'
          & Hfi & Hfr & Hlen).
    exists s', ((path, p) :: processed), (features :: rows),
      (sample_ID :: ids).
    split_and!; try done.
    + rewrite fmap_cons. by apply sublist_skip.
    + by rewrite Hqc', Hqc, <- app_assoc.
    + by rewrite Hids', Hids, <- app_assoc.
    + by constructor.
    + by constructor.
    + assert (skipped s1 = skipped s) as Herr.
      { unfold skipped. rewrite Hlog, filter_app. cbn. by rewrite app_nil_r. }
      rewrite Herr in Hlen. cbn [length]. lia.
  - destruct Hr as (Hqc & Hids & Hlog). rewrite Hfile.
    destruct (IH (logging (Error (stem path) e) s1) Hin1)
      as (s' & processed & rows & ids & -> & Hsub & Hqc' & Hids'
          & Hfi & Hfr & Hlen).
    exists s', processed, rows, ids. split_and!; try done.
    + by apply sublist_cons.
    + by rewrite Hqc', <- Hqc.
    + by rewrite Hids', <- Hids.
    + rewrite skipped_logging_Error, length_app in Hlen.
      assert (skipped s1 = skipped s) as Herr
        by (unfold skipped; by rewrite Hlog).
      rewrite Herr in Hlen. cbn [length] in *. lia.
Qed.

(** With as many values as rows, the column is attached row by row. *)
Lemma set_column_lockstep (values : list string)
    (table : list (gmap string float64)) :
  length values = length table →
  set_column values table = Ok (zip values table).
Proof.
  intros Hlen. unfold set_column. destruct table as [|row table].
  - by destruct values.
  - by rewrite bool_decide_eq_true_2.
Qed.

Lemma batch_lockstep (paths : list string) (answers : list string) :
  Forall (λ p, contains "OCV" (stem p) = false) paths →
  Forall recognised answers →
  ∃ s' (processed : list (string * string)) table,
    file_loop (Some <$> paths) (initial answers) = Ok s'
    ∧ insert_sample_IDs s' = Ok table
    ∧ processed.*1 `sublist_of` paths
    ∧ Forall2 (λ d t, resolve_sample_ID (stem d.1) = Ok t.1
                      ∧ recognised d.2
                      ∧ summary_row d.1 d.2 = Ok t.2) processed table
    ∧ (length table + length (skipped s') = length paths)%nat.
Proof.
  intros Hocv Hin.
  destruct (file_loop_lockstep paths (initial answers) Hocv Hin)
    as (s' & processed & rows & ids & Hrun & Hsub & Hqc & Hids
        & Hfi & Hfr & Hlen).
  cbn in Hqc, Hids, Hlen.
  pose proof (Forall2_length _ _ _ Hfi) as Hli.
  pose proof (Forall2_length _ _ _ Hfr) as Hlr.
  exists s', processed, (zip ids rows). split_and!; try done.
  - unfold insert_sample_IDs. rewrite Hqc, Hids.
    apply set_column_lockstep. congruence.
  - clear -Hfi Hfr. revert rows Hfr.
    induction Hfi as [|d id processed ids Hd Hfi IH]; intros rows Hfr.
    + inversion_clear Hfr. constructor.
    + inversion_clear Hfr as [|?? ? rows' [??] Hfr'].
      cbn [zip zip_with]. constructor; [done|]. by apply IH.
  - rewrite length_zip. lia.
Qed.

(** A file without protocol marker for which the operator's answer is
    none of the three codes: the turn ends normally, the sample ID is
    appended and the summary is not. *)
Lemma unrecognised_answer_appends_ID_only
    (path : string) (s : state) (answer : string) (answers : list string)
    (sample_ID : string) :
  contains "OCV" (stem path) = false →
  contains "Life" (stem path) = false →
  contains "Formation-Capacity-Check" (stem path) = false →
  contains "Formation" (stem path) = false →
  resolve_sample_ID (stem path) = Ok sample_ID →
  stdin s = answer :: answers →
  ¬ recognised answer →
  ∃ s', process_file (Some path) s = (s', Ok ())
    ∧ qc_sample_summary s' = qc_sample_summary s
    ∧ cycle_life_sample_data s' = cycle_life_sample_data s
    ∧ sample_ID_list s' = sample_ID_list s ++ [sample_ID]
    ∧ log s' = log s ++ [Finished (stem path)].
Proof.
  intros Hocv Hlife Hfc Hf Hid Hin Hbad. unfold process_file.
  unfold mbind, M_bind, modify, lift, classify. cbn [set_filename stdin].
  rewrite Hid. unfold get_protocol_type.
  rewrite Hocv, Hlife, Hfc, Hf, Hin. cbn [input log_and_reraise].
  rewrite bool_decide_eq_false_2.
  2:{ intros Hin'. apply Hbad. unfold recognised.
      apply elem_of_cons in Hin' as [->|Hin']; [left|].
      apply list_elem_of_singleton in Hin' as ->. right; left. }
  rewrite bool_decide_eq_false_2.
  2:{ intros ->. apply Hbad. unfold recognised. do 2 right; left. }
  by eexists.
Qed.

(** One file raising among [N], all protocol codes recognised: [N - 1]
    rows and [N - 1] sample IDs. *)
Lemma batch_one_failure (paths : list string) (answers : list string) :
  Forall (λ p, contains "OCV" (stem p) = false) paths →
  Forall recognised answers →
  ∃ s', file_loop (Some <$> paths) (initial answers) = Ok s'
    ∧ (length (skipped s') = 1%nat →
       length (qc_sample_summary s') = (length paths - 1)%nat
       ∧ length (sample_ID_list s') = (length paths - 1)%nat).
Proof.
  intros Hocv Hin.
  destruct (file_loop_lockstep paths (initial answers) Hocv Hin)
    as (s' & processed & rows & ids & Hrun & Hsub & Hqc & Hids
        & Hfi & Hfr & Hlen).
  cbn in Hqc, Hids, Hlen.
  pose proof (Forall2_length _ _ _ Hfi) as Hli.
  pose proof (Forall2_length _ _ _ Hfr) as Hlr.
  exists s'. split; [done|]. intros Hone. rewrite Hqc, Hids. lia.
Qed.

(** The OCV paths never reach the loop: [filter_OCV_files] drops them,
    and a file name with the marker comes from a path with the marker. *)
Lemma selected_paths_no_OCV selected paths path :
  selected_paths selected = Ok paths → Some path ∈ paths →
  contains "OCV" path = false.
Proof.
  unfold selected_paths, filter_OCV_files.
  destruct selected as [|p|l]; cbn [mbind outcome_bind mret outcome_ret];
    [done|..]; intros [= <-] Hin.
  - apply list_elem_of_singleton in Hin.
    destruct (contains "OCV" p) eqn:E; by simplify_eq.
  - apply list_elem_of_fmap in Hin as (q & [= <-] & Hq).
    by apply list_elem_of_filter in Hq as [? _].
Qed.

End loop.

Section sample_batches.
Import Str Features CamBiologicDataImport ExtractElectrochemicalFeatures.
Import Main Sample.

(** C4 (the code departs from the claim).  Three files: a formation
    file, a file without protocol marker for which the operator answers
    "X" to the prompt, and a file without sample ID, which raises.  The
    second file ends normally and its ID is appended, but no branch of
    the loop body gave it a row: one file out of three raised, and the
    summary has one row for two sample IDs, so that attaching the column
    of IDs raises. *)
Theorem unrecognised_answer_breaks_lockstep :
  ∃ s,
    @file_loop runtime
      [Some "/data/QCL-7-CC-01_0.5_Formation.mpr";
       Some "/data/QCL-7-CC-02_0.5_Rest.mpr";
       Some "/data/notes.mpr"]
      (initial ["X"]) = Ok s
    ∧ log s = [Finished "QCL-7-CC-01_0.5_Formation";
               Finished "QCL-7-CC-02_0.5_Rest"; Error "notes" IndexError]
    ∧ length (qc_sample_summary s) = 1%nat
    ∧ sample_ID_list s = ["QCL-7-CC-01"; "QCL-7-CC-02"]
    ∧ insert_sample_IDs s = Raise ValueError.
Proof.
  assert (outline (@file_loop runtime
                     [Some "/data/QCL-7-CC-01_0.5_Formation.mpr";
                      Some "/data/QCL-7-CC-02_0.5_Rest.mpr";
                      Some "/data/notes.mpr"] (initial ["X"]))
          = Some (1%nat, 0%nat, ["QCL-7-CC-01"; "QCL-7-CC-02"],
                  [Finished "QCL-7-CC-01_0.5_Formation";
                   Finished "QCL-7-CC-02_0.5_Rest";
                   Error "notes" IndexError])) as Hrun
    by (vm_compute; reflexivity).
  destruct (file_loop _ _) as [s| |]; [|done..].
  cbn [outline] in Hrun. injection Hrun as Hqc _ Hids Hlog.
  exists s. split_and!; try done.
  unfold insert_sample_IDs, set_column. rewrite Hids.
  destruct (qc_sample_summary s) as [|row rows]; [done|].
  cbn [length] in *. by rewrite bool_decide_eq_false_2 by lia.
Qed.

(** A batch of three files, the second of which raises: two rows, two
    sample IDs, in the order of the files, and one row of cycle-life
    detail. *)
Lemma batch_one_failure_sample :
  outline (@file_loop runtime
             (Some <$> ["/data/QCL-1-CC-01_0.5_Formation.mpr";
                        "/data/notes.mpr";
                        "/data/QCL-1-CC-02_0.5_Cycle-Life.mpr"])
             (initial []))
  = Some (2%nat, 1%nat, ["QCL-1-CC-01"; "QCL-1-CC-02"],
          [Finished "QCL-1-CC-01_0.5_Formation"; Error "notes" IndexError;
           Finished "QCL-1-CC-02_0.5_Cycle-Life"]).
Proof. vm_compute. reflexivity. Qed.
End sample_batches.

(* ================================================================== *)
(** * Further properties of the extraction *)

Section extraction_edges.
Import Features ExtractElectrochemicalFeatures Sample.

Lemma filter_nil_Forall {A} (P : A → Prop) `{!∀ x, Decision (P x)}
    (l : list A) :
  filter P l = [] ↔ Forall (λ x, ¬ P x) l.
Proof.
  induction l as [|x l IH]; [by split; [constructor|]|].
  rewrite filter_cons, Forall_cons. destruct (decide (P x)).
  - split; [done|]. by intros [? _].
  - rewrite IH. tauto.
Qed.

Lemma div_NaN_r (x : float64) : div x NaN = NaN.
Proof. by destruct x. Qed.

Lemma sub_NaN_r (x : float64) : sub x NaN = NaN.
Proof. by destruct x. Qed.

(** X1.  [extract_ocv] raises [IndexError] exactly when the record has
    no REST row of step number 0; it raises nothing else, never leaves
    the program, and when it returns only its own key has changed. *)
Theorem extract_ocv_IndexError_iff
    (df : DataFrame) (features : gmap string float64) :
  (extract_ocv df features = Raise IndexError
   ↔ Forall (λ r, ¬ (step_type r = "REST" ∧ step_number r = 0)) df)
  ∧ (∀ e, extract_ocv df features = Raise e → e = IndexError)
  ∧ (∀ code, extract_ocv df features ≠ SystemExit code)
  ∧ (∀ features' key,
       extract_ocv df features = Ok features' → key ≠ key_ocv →
       features' !! key = features !! key).
Proof.
  rewrite extract_ocv_rows. unfold iloc_last. rewrite fmap_last.
  destruct (last (filter (λ r, step_type r = "REST" ∧ step_number r = 0) df))
    as [r'|] eqn:El;
    cbn [fmap option_fmap option_map mbind outcome_bind mret outcome_ret].
  - split_and!.
    + split; [intros Heq; discriminate Heq|].
      intros Hno. apply last_Some_elem_of, list_elem_of_filter in El as [HP Hin].
      by destruct (proj1 (Forall_forall _ _) Hno r' Hin).
    + intros e Heq. discriminate Heq.
    + intros code Heq. discriminate Heq.
    + intros features' key [= <-] Hne. by rewrite lookup_insert_ne.
  - apply last_None in El. split_and!; try done.
    + split; [intros _|done].
      by apply (filter_nil_Forall
                  (λ r, step_type r = "REST" ∧ step_number r = 0)).
    + intros e Heq. by injection Heq as <-.
Qed.

(** X2.  A formation record with a REST row of step number 0 but no
    CHARGE row in cycle 1: with a mass of zero the division of the
    missing capacity by the mass raises [ZeroDivisionError]; with any
    other mass the extraction does not fail, and the charge capacity,
    the specific charge capacity and the coulombic efficiency are NaN. *)
Theorem formation_without_charge_rows
    (filename : string) (df : DataFrame) (mass v : float64) :
  iloc_last (voltage <$> filter (λ r, step_type r = "REST"
                                      ∧ step_number r = 0) df) = Ok v →
  Forall (λ r, ¬ (step_type r = "CHARGE" ∧ cycle r = 1)) df →
  if zero mass
  then extract_formation_features filename (Some df) mass
       = Raise ZeroDivisionError
  else ∃ features,
    extract_formation_features filename (Some df) mass = Ok features
    ∧ features !! key_ocv = Some (round v 3)
    ∧ features !! key_charge = Some NaN
    ∧ features !! key_specific_charge = Some NaN
    ∧ features !! key_efficiency = Some NaN.
Proof.
  intros Hv Hno.
  apply (filter_nil_Forall (λ r, step_type r = "CHARGE" ∧ cycle r = 1))
    in Hno.
  assert (first_cycle "CHARGE" df = []) as Hempty
    by (unfold first_cycle; by rewrite Hno).
  rewrite extract_formation_features_cases, Hv. cbn [mbind outcome_bind].
  unfold zero_division. rewrite Hempty.
  destruct (zero mass); [done|]. cbn [andb].
  eexists. split; [reflexivity|].
  unfold formation_features. cbn zeta. rewrite Hempty.
  change (series_max []) with NaN. cbn [mul div round].
  split_and!; simplify_map_eq; try done.
  by rewrite div_NaN_r.
Qed.

Lemma formation_without_charge_rows_witness :
  (∃ features,
     extract_formation_features "f"
       (Some [Row "REST" 0 1 (decimal 31 1) (of_Z 0);
              Row "DISCHARGE" 2 1 (decimal 30 1) (decimal 18 4)])
       (of_Z 1) = Ok features
     ∧ features !! key_ocv = Some (round (decimal 31 1) 3)
     ∧ features !! key_charge = Some NaN
     ∧ features !! key_specific_charge = Some NaN
     ∧ features !! key_efficiency = Some NaN)
  ∧ extract_formation_features "f"
      (Some [Row "REST" 0 1 (decimal 31 1) (of_Z 0);
             Row "DISCHARGE" 2 1 (decimal 30 1) (decimal 18 4)])
      (of_Z 0) = Raise ZeroDivisionError.
Proof.
  split.
  - apply (formation_without_charge_rows "f"
             [Row "REST" 0 1 (decimal 31 1) (of_Z 0);
              Row "DISCHARGE" 2 1 (decimal 30 1) (decimal 18 4)]
             (of_Z 1) (decimal 31 1)); by_evaluation.
  - apply (formation_without_charge_rows "f"
             [Row "REST" 0 1 (decimal 31 1) (of_Z 0);
              Row "DISCHARGE" 2 1 (decimal 30 1) (decimal 18 4)]
             (of_Z 0) (decimal 31 1)); by_evaluation.
Defined.
End extraction_edges.

Section retention_and_drift.
Import Features ExtractElectrochemicalFeatures Sample.

(** The grouped table holds the cycles above 1 only. *)
Lemma cycle_capacity_first_cycle (df : DataFrame) (c : Z) :
  c ≤ 1 → cycle_capacity (discharge_by_cycle df) c = NaN.
Proof.
  intros Hc. unfold cycle_capacity, discharge_by_cycle.
  rewrite !mask_fmap.
  set (table := groupby_cycle_max _).
  rewrite list_filter_filter.
  assert (filter (λ g : Z * float64,
                    bool_decide (g.1 = c) = true
                    ∧ bool_decide (1 < g.1) = true) table = []) as ->;
    [|done].
  apply (filter_nil_Forall (λ g : Z * float64,
                              bool_decide (g.1 = c) = true
                              ∧ bool_decide (1 < g.1) = true)).
  apply Forall_forall. intros g _.
  rewrite !bool_decide_eq_true. lia.
Qed.

(** X3.  With the initial discharge capacity in the dict, the value
    stored for a requested cycle [n > 1] is 100 times the greatest
    [step_amp_hours] of the DISCHARGE rows of that cycle, divided by the
    thousandth of the initial capacity, rounded to 1 decimal; a
    requested cycle [n <= 1] gets NaN, whatever rows it has. *)
Theorem retention_formula
    (df : DataFrame) (features : gmap string float64) (cycles : list Z)
    (n : Z) (v : float64) :
  features !! key_discharge = Some v →
  n ∈ cycles →
  ∃ features',
    extract_capacities_for_cycles df features cycles = Ok features'
    ∧ features' !! key_retention n
      = Some (if bool_decide (1 < n)
              then round (div (mul (series_max (discharge_of n df))
                                 (of_Z 100))
                            (div v (of_Z 1000))) 1
              else NaN).
Proof.
  intros Hv Hin. unfold extract_capacities_for_cycles, getitem.
  rewrite Hv. cbn [mbind outcome_bind mret outcome_ret].
  eexists. split; [reflexivity|].
  rewrite (foldl_insert_lookup key_retention
             (λ c, round (div (mul (cycle_capacity (discharge_by_cycle df) c)
                                 (of_Z 100))
                            (div v (of_Z 1000))) 1)
             features cycles n); [|intros m; apply key_retention_inj|done].
  cbn beta. case_bool_decide.
  - by rewrite cycle_capacity_spec.
  - by rewrite cycle_capacity_first_cycle by lia.
Qed.

Lemma retention_formula_witness :
  ∃ features',
    extract_capacities_for_cycles cycling_df
      {[ key_discharge := decimal 18 1 ]} [1; 3] = Ok features'
    ∧ features' !! key_retention 3
      = Some (if bool_decide (1 < 3)
              then round (div (mul (series_max (discharge_of 3 cycling_df))
                                 (of_Z 100))
                            (div (decimal 18 1) (of_Z 1000))) 1
              else NaN).
Proof.
  apply (retention_formula cycling_df {[ key_discharge := decimal 18 1 ]}
           [1; 3] 3 (decimal 18 1)); by_evaluation.
Defined.

Lemma foldl_insert_dom (k : Z → string) (g : Z → float64)
    (features : gmap string float64) (cycles : list Z) :
  dom (foldl (λ features c, <[k c := g c]> features) features cycles)
  = dom features ∪ list_to_set (k <$> cycles).
Proof.
  induction cycles as [|c cycles IH] using rev_ind.
  - cbn. by rewrite (right_id_L ∅ (∪)).
  - rewrite foldl_snoc, dom_insert_L, IH, fmap_app, list_to_set_app_L.
    cbn. rewrite (right_id_L ∅ (∪)).
    rewrite (comm_L (∪) {[k c]}). by rewrite (assoc_L (∪)).
Qed.

Lemma foldl_insert_lookup_other (k : Z → string) (g : Z → float64)
    (features : gmap string float64) (cycles : list Z) (key : string) :
  (∀ c, c ∈ cycles → key ≠ k c) →
  foldl (λ features c, <[k c := g c]> features) features cycles !! key
  = features !! key.
Proof.
  induction cycles as [|c cycles IH] using rev_ind; intros Hne; [done|].
  rewrite foldl_snoc, lookup_insert_ne.
  - apply IH. intros c' Hc'. apply Hne, elem_of_app. by left.
  - intros Heq. apply (Hne c); [|done]. apply elem_of_app. right. left.
Qed.

Lemma key_retention_not_initial (c : Z) :
  key_retention c ≠ key_charge ∧ key_retention c ≠ key_specific_charge
  ∧ key_retention c ≠ key_discharge
  ∧ key_retention c ≠ key_specific_discharge.
Proof. unfold key_retention. by split_and!. Qed.

(** X4.  The retention loop adds one key per requested cycle and
    touches no other: the dict it returns has the keys it was given and
    the retention keys, every other key has the value it had, and the
    initial discharge capacity in particular is still there. *)
Theorem extract_capacities_for_cycles_keys
    (df : DataFrame) (features : gmap string float64) (cycles : list Z)
    (v : float64) :
  features !! key_discharge = Some v →
  ∃ features',
    extract_capacities_for_cycles df features cycles = Ok features'
    ∧ dom features' = dom features ∪ list_to_set (key_retention <$> cycles)
    ∧ (∀ key, (∀ c, c ∈ cycles → key ≠ key_retention c) →
              features' !! key = features !! key)
    ∧ features' !! key_discharge = Some v.
Proof.
  intros Hv. unfold extract_capacities_for_cycles, getitem.
  rewrite Hv. cbn [mbind outcome_bind mret outcome_ret].
  eexists. split; [reflexivity|]. split_and!.
  - apply foldl_insert_dom.
  - intros key Hkey. by apply foldl_insert_lookup_other.
  - rewrite foldl_insert_lookup_other; [done|].
    intros c _ Heq. by apply (key_retention_not_initial c).
Qed.

Lemma extract_capacities_for_cycles_keys_witness :
  ∃ features',
    extract_capacities_for_cycles cycling_df
      {[ key_discharge := decimal 18 1 ]} [2; 3] = Ok features'
    ∧ dom features'
      = dom ({[ key_discharge := decimal 18 1 ]} : gmap string float64)
        ∪ list_to_set (key_retention <$> [2; 3])
    ∧ (∀ key, (∀ c, c ∈ [2; 3] → key ≠ key_retention c) →
              features' !! key
              = ({[ key_discharge := decimal 18 1 ]}
                   : gmap string float64) !! key)
    ∧ features' !! key_discharge = Some (decimal 18 1).
Proof.
  apply (extract_capacities_for_cycles_keys cycling_df
           {[ key_discharge := decimal 18 1 ]} [2; 3] (decimal 18 1)).
  by_evaluation.
Defined.
End retention_and_drift.

Section drift_edges.
Import Features ExtractElectrochemicalFeatures Sample.

Lemma foldl_difference_lookup_other dd st cycles (key : string) :
  (∀ c, c ∈ cycles → key ≠ key_difference c) →
  (foldl (difference_step dd) st cycles).1 !! key = st.1 !! key.
Proof.
  induction cycles as [|c cycles IH] using rev_ind; intros Hne; [done|].
  rewrite foldl_difference_step_snoc. cbn [fst]. rewrite lookup_insert_ne.
  - apply IH. intros c' Hc'. apply Hne, elem_of_app. by left.
  - intros Heq. apply (Hne c); [|done]. apply elem_of_app. right. left.
Qed.

Lemma drift_self (q : Qc) : q ≠ 0%Qc → drift (Fin q) (Fin q) = of_Z 0.
Proof.
  intros Hq. unfold drift, of_Z. cbn [sub div].
  rewrite is_zero_hundred. cbn [div].
  assert (is_zero (q / Qc_of_Z 100) = false) as ->.
  { apply bool_decide_eq_false. intros Heq. apply Hq.
    unfold Qcdiv in Heq. apply Qcmult_integral in Heq as [?|Hinv]; [done|].
    exfalso. revert Hinv. by_evaluation. }
  assert (is_zero (q - q) = true) as Hz.
  { apply bool_decide_eq_true. ring. }
  cbn [round]. f_equal.
  replace ((q - q) / (q / Qc_of_Z 100) * pow10 3)%Qc with (Qc_of_Z 0).
  - by_evaluation.
  - apply bool_decide_eq_true in Hz. rewrite Hz. unfold Qcdiv.
    rewrite !Qcmult_0_l. by_evaluation.
Qed.

(** X5.  When the list of requested cycles opens with cycle 2 and does
    not ask for it again, the drift stored for cycle 2 compares its
    capacity with itself: it is 0.0 whenever that capacity is a number
    other than zero. *)
Theorem first_drift_is_zero
    (df : DataFrame) (features : gmap string float64) (rest : list Z)
    (q : Qc) :
  series_max (discharge_of 2 df) = Fin q →
  q ≠ 0%Qc →
  2 ∉ rest →
  ∃ features',
    extract_discharge_capacity_difference df features (2 :: rest)
    = Ok features'
    ∧ features' !! key_difference 2 = Some (of_Z 0).
Proof.
  intros Hcap Hq Hrest. unfold extract_discharge_capacity_difference.
  eexists. split; [reflexivity|].
  cbn [foldl]. rewrite foldl_difference_lookup_other.
  - cbn [difference_step fst]. rewrite lookup_insert_eq.
    rewrite cycle_capacity_spec, Hcap by lia.
    f_equal. by apply drift_self.
  - intros c Hc Heq%key_difference_inj. by subst.
Qed.

Lemma first_drift_is_zero_witness :
  ∃ features',
    extract_discharge_capacity_difference cycling_df ∅ (2 :: [3; 4])
    = Ok features'
    ∧ features' !! key_difference 2 = Some (of_Z 0).
Proof.
  apply (first_drift_is_zero cycling_df ∅ [3; 4] (Qc_of_Z 10));
    by_evaluation.
Defined.

(** X6.  A requested cycle [p > 1] without DISCHARGE rows costs two
    entries: the drift stored for [p] is NaN, and so is the drift of the
    cycle requested right after it, whose baseline is the missing
    capacity. *)
Theorem drift_after_missing_cycle
    (df : DataFrame) (features : gmap string float64) (cycles : list Z)
    (p c : Z) :
  1 < p →
  (∀ r, r ∈ df → step_type r = "DISCHARGE" → cycle r ≠ p) →
  ∃ features',
    extract_discharge_capacity_difference df features (cycles ++ [p; c])
    = Ok features'
    ∧ features' !! key_difference c = Some NaN
    ∧ (p ≠ c → features' !! key_difference p = Some NaN).
Proof.
  intros Hp Hno. unfold extract_discharge_capacity_difference.
  eexists. split; [reflexivity|].
  change (cycles ++ [p; c]) with (cycles ++ [p] ++ [c]).
  rewrite app_assoc, foldl_difference_step_snoc. cbn [fst].
  rewrite foldl_difference_step_snoc. cbn [fst snd].
  rewrite (cycle_capacity_spec df p Hp), (discharge_of_nil df p Hno).
  change (series_max []) with NaN. split.
  - rewrite lookup_insert_eq. unfold drift. by rewrite sub_NaN_r.
  - intros Hne. rewrite lookup_insert_ne, lookup_insert_eq; [done|].
    intros Heq%key_difference_inj. by subst.
Qed.

Lemma drift_after_missing_cycle_witness :
  ∃ features',
    extract_discharge_capacity_difference cycling_df ∅ ([2; 4] ++ [5; 3])
    = Ok features'
    ∧ features' !! key_difference 3 = Some NaN
    ∧ (5 ≠ 3 → features' !! key_difference 5 = Some NaN).
Proof.
  apply (drift_after_missing_cycle cycling_df ∅ [2; 4] 5 3); [lia|].
  apply (proj1 (Forall_forall
                  (λ r, step_type r = "DISCHARGE" → cycle r ≠ 5) cycling_df)).
  by_evaluation.
Defined.
End drift_edges.

(* ================================================================== *)
(** * The feature sets of the three extraction policies *)

Section feature_sets.
Import Str Features ExtractElectrochemicalFeatures Report Sample.


Lemma key_difference_not_others (c : Z) :
  key_difference c ≠ key_charge ∧ key_difference c ≠ key_specific_charge
  ∧ key_difference c ≠ key_discharge
  ∧ key_difference c ≠ key_specific_discharge
  ∧ ∀ c', key_difference c ≠ key_retention c'.
Proof.
  unfold key_difference. by split_and!.
Qed.

Lemma foldl_difference_dom dd st cycles :
  dom (foldl (difference_step dd) st cycles).1
  = dom st.1 ∪ list_to_set (key_difference <$> cycles).
Proof.
  induction cycles as [|c cycles IH] using rev_ind.
  - cbn. by rewrite (right_id_L ∅ (∪)).
  - rewrite foldl_difference_step_snoc. cbn [fst].
    rewrite dom_insert_L, IH, fmap_app, list_to_set_app_L.
    cbn. rewrite (right_id_L ∅ (∪)).
    rewrite (comm_L (∪) {[key_difference c]}). by rewrite (assoc_L (∪)).
Qed.

Lemma initial_features_dom df mass :
  dom (initial_features df mass)
  = list_to_set [key_charge; key_specific_charge; key_discharge;
                 key_specific_discharge].
Proof.
  unfold initial_features. cbn zeta. rewrite !dom_insert_L, dom_empty_L.
  by_evaluation.
Qed.

Lemma formation_features_dom df mass v :
  dom (formation_features df mass v)
  = list_to_set [key_ocv; key_charge; key_specific_charge; key_discharge;
                 key_specific_discharge; key_efficiency].
Proof.
  unfold formation_features. cbn zeta. rewrite !dom_insert_L, dom_empty_L.
  by_evaluation.
Qed.

Lemma extract_formation_features_Ok filename df mass v :
  iloc_last (voltage <$> filter (λ r, step_type r = "REST"
                                      ∧ step_number r = 0) df) = Ok v →
  zero_division df mass = false →
  ∃ features,
    extract_formation_features filename (Some df) mass = Ok features
    ∧ dom features
      = list_to_set [key_ocv; key_charge; key_specific_charge; key_discharge;
                     key_specific_discharge; key_efficiency].
Proof.
  intros Hv Hz. exists (formation_features df mass v).
  split; [by apply extract_formation_features_eq|].
  apply formation_features_dom.
Qed.

(** X7.  [extract_formation_features] has four outcomes: [TypeError]
    when the reader gave no table; [IndexError] when the table has no
    REST row of step number 0; with such a row, [ZeroDivisionError]
    when the mass is zero and cycle 1 has no CHARGE row or no DISCHARGE
    row; and otherwise a dict with exactly the six formation keys. *)
Theorem extract_formation_features_outcome
    (filename : string) (cloud_data_df : option DataFrame) (mass : float64) :
  (cloud_data_df = None →
   extract_formation_features filename cloud_data_df mass = Raise TypeError)
  ∧ (∀ df, cloud_data_df = Some df →
       Forall (λ r, ¬ (step_type r = "REST" ∧ step_number r = 0)) df →
       extract_formation_features filename cloud_data_df mass
       = Raise IndexError)
  ∧ (∀ df, cloud_data_df = Some df →
       Exists (λ r, step_type r = "REST" ∧ step_number r = 0) df →
       zero mass = true →
       first_cycle "CHARGE" df = [] ∨ first_cycle "DISCHARGE" df = [] →
       extract_formation_features filename cloud_data_df mass
       = Raise ZeroDivisionError)
  ∧ (∀ df, cloud_data_df = Some df →
       Exists (λ r, step_type r = "REST" ∧ step_number r = 0) df →
       zero mass = false
       ∨ (first_cycle "CHARGE" df ≠ [] ∧ first_cycle "DISCHARGE" df ≠ []) →
       ∃ features,
         extract_formation_features filename cloud_data_df mass = Ok features
         ∧ dom features
           = list_to_set [key_ocv; key_charge; key_specific_charge;
                          key_discharge; key_specific_discharge;
                          key_efficiency]).
Proof.
  split_and!.
  - by intros ->.
  - intros df -> Hno.
    apply (filter_nil_Forall
             (λ r, step_type r = "REST" ∧ step_number r = 0)) in Hno.
    unfold extract_formation_features. cbn [subscript mbind outcome_bind].
    by rewrite extract_ocv_rows, Hno.
  - intros df -> Hrest Hz Hempty.
    destruct (rest_row_iloc_last df Hrest) as [v Hv].
    rewrite extract_formation_features_cases, Hv. cbn [mbind outcome_bind].
    unfold zero_division. rewrite Hz.
    by destruct Hempty as [-> | ->]; rewrite ?orb_true_r.
  - intros df -> Hrest Hz.
    destruct (rest_row_iloc_last df Hrest) as [v Hv].
    apply (extract_formation_features_Ok filename df mass v Hv).
    unfold zero_division. destruct Hz as [-> |[Hc Hd]]; [done|].
    rewrite !bool_decide_eq_false_2 by done. apply andb_false_r.
Qed.

Lemma detail_features_dom df mass :
  dom (detail_features df mass) = list_to_set detail_keys.
Proof.
  unfold detail_features.
  rewrite foldl_difference_dom. cbn [fst].
  rewrite (foldl_insert_dom key_retention (retention df)).
  rewrite initial_features_dom.
  unfold detail_keys. rewrite !list_to_set_app_L.
  symmetry. apply (assoc_L (∪)).
Qed.
End feature_sets.

Section cycle_life_sets.
Import Str Features ExtractElectrochemicalFeatures Report Sample.

Lemma initial_features_keys df mass (key : string) :
  key ∈ dom (initial_features df mass) →
  (∀ c, key ≠ key_retention c) ∧ (∀ c, key ≠ key_difference c).
Proof.
  rewrite initial_features_dom, elem_of_list_to_set.
  rewrite !elem_of_cons, elem_of_nil.
  intros [->|[->|[->|[->|[]]]]]; split; intros c Heq; symmetry in Heq;
    first [by apply (key_retention_not_initial c)
          |by apply (key_difference_not_others c)].
Qed.

(** X8.  The summary policy of a cycle-life file raises [TypeError]
    without a table and, on a table, [ZeroDivisionError] when the mass
    is zero and cycle 1 has no CHARGE row or no DISCHARGE row; in every
    other case it returns exactly five keys, the two capacities, the
    two specific capacities and "Retention Cycle 50 (%)". *)
Theorem extract_qc_cycle_life_features_outcome
    (filename : string) (cloud_data_df : option DataFrame) (mass : float64) :
  match cloud_data_df with
  | None =>
      extract_qc_cycle_life_features filename cloud_data_df mass
      = Raise TypeError
  | Some df =>
      if zero mass
         && (bool_decide (first_cycle "CHARGE" df = [])
             || bool_decide (first_cycle "DISCHARGE" df = []))
      then extract_qc_cycle_life_features filename cloud_data_df mass
           = Raise ZeroDivisionError
      else
      ∃ features,
        extract_qc_cycle_life_features filename cloud_data_df mass
        = Ok features
        ∧ dom features
          = list_to_set [key_charge; key_specific_charge; key_discharge;
                         key_specific_discharge; key_retention 50]
        ∧ features !! key_retention 50
          = Some (round (div (mul (series_max (discharge_of 50 df)) (of_Z 100))
                           (div (round (mul (series_max
                                               (first_cycle "DISCHARGE" df))
                                          (of_Z 1000)) 3) (of_Z 1000))) 1)
  end.
Proof.
  destruct cloud_data_df as [df|]; [|done].
  rewrite extract_qc_cycle_life_features_cases.
  change (zero mass && _) with (zero_division df mass).
  destruct (zero_division df mass); [done|].
  eexists. split; [reflexivity|]. unfold qc_features. split.
  - rewrite dom_insert_L, initial_features_dom. by_evaluation.
  - rewrite lookup_insert_eq. unfold retention.
    by rewrite cycle_capacity_spec by lia.
Qed.

(** X9.  On a table the detail policy of a cycle-life file raises only
    [ZeroDivisionError], when the mass is zero and cycle 1 has no CHARGE
    row or no DISCHARGE row; in every other case it returns exactly 102
    keys: the four of the initial capacities, one retention and one
    drift key for each cycle from 2 to 50.  The three column groups of
    the report split them: every key is in exactly one of "Initial",
    "Cycle" and "Difference". *)
Theorem detail_row_columns
    (filename : string) (df : DataFrame) (mass : float64) :
  if zero mass
     && (bool_decide (first_cycle "CHARGE" df = [])
         || bool_decide (first_cycle "DISCHARGE" df = []))
  then extract_all_cycle_life_features filename (Some df) mass
       = Raise ZeroDivisionError
  else
  ∃ features,
    extract_all_cycle_life_features filename (Some df) mass = Ok features
    ∧ dom features = list_to_set detail_keys
    ∧ size (dom features) = 102%nat
    ∧ ∀ key columns,
        key ∈ dom features → key ∈ columns →
        (key ∈ initial_cols columns ∧ (key ∉ cycle_cols columns)
         ∧ (key ∉ difference_cols columns))
        ∨ ((key ∉ initial_cols columns) ∧ key ∈ cycle_cols columns
           ∧ (key ∉ difference_cols columns))
        ∨ ((key ∉ initial_cols columns) ∧ (key ∉ cycle_cols columns)
           ∧ key ∈ difference_cols columns).
Proof.
  rewrite extract_all_cycle_life_features_cases.
  change (zero mass && _) with (zero_division df mass).
  destruct (zero_division df mass); [done|].
  exists (detail_features df mass). split; [done|].
  rewrite detail_features_dom. split; [done|]. split.
  - by_evaluation.
  - intros key columns Hkey Hcol. apply elem_of_list_to_set in Hkey.
    assert (Forall (λ key,
               key ≠ "Sample IDs"
               ∧ ((contains "Initial" key = true
                   ∧ contains "Cycle" key = false
                   ∧ contains "Difference" key = false)
                  ∨ (contains "Initial" key = false
                     ∧ contains "Cycle" key = true
                     ∧ contains "Difference" key = false)
                  ∨ (contains "Initial" key = false
                     ∧ contains "Cycle" key = false
                     ∧ contains "Difference" key = true))) detail_keys)
      as Hall by by_evaluation.
    destruct (proj1 (Forall_forall _ _) Hall key Hkey) as [Hid Hcases].
    unfold initial_cols, cycle_cols, difference_cols, column_group.
    rewrite !list_elem_of_filter.
    destruct Hcases as [(-> & -> & ->)|[(-> & -> & ->)|(-> & -> & ->)]];
      [left|right; left|right; right]; split_and!; try done;
      by intros [[? _] _].
Qed.

(** X10.  For one and the same file the summary row is part of the
    detail row: each of its five values, the retention at cycle 50
    included, is stored under the same key in the detail row. *)
Theorem summary_row_within_detail_row
    (filename : string) (cloud_data_df : option DataFrame) (mass : float64)
    (features_qc features_all : gmap string float64) :
  extract_qc_cycle_life_features filename cloud_data_df mass
  = Ok features_qc →
  extract_all_cycle_life_features filename cloud_data_df mass
  = Ok features_all →
  features_qc ⊆ features_all.
Proof.
  destruct cloud_data_df as [df|]; [|done].
  rewrite extract_qc_cycle_life_features_cases,
    extract_all_cycle_life_features_cases.
  destruct (zero_division df mass); [done|].
  intros <-%Ok_inj <-%Ok_inj. unfold qc_features, detail_features.
  apply map_subseteq_spec. intros key v Hkey.
  apply lookup_insert_Some in Hkey as [[<- <-]|[Hne Hkey]].
  - rewrite foldl_difference_lookup_other.
    + cbn [fst].
      rewrite (foldl_insert_lookup key_retention (retention df)
                 (initial_features df mass) arange_2_51 50);
        [done|intros m; apply key_retention_inj|by_evaluation].
    + intros c _ Heq. symmetry in Heq.
      by apply (key_difference_not_others c) in Heq.
  - assert (key ∈ dom (initial_features df mass)) as Hin
      by (apply elem_of_dom; by eexists).
    destruct (initial_features_keys df mass key Hin) as [Hret Hdiff].
    rewrite foldl_difference_lookup_other by (intros c _; apply Hdiff).
    cbn [fst].
    by rewrite (foldl_insert_lookup_other key_retention (retention df))
      by (intros c _; apply Hret).
Qed.

Lemma summary_row_within_detail_row_witness :
  ∃ features_qc features_all,
    extract_qc_cycle_life_features "f" (Some cycling_df) (decimal 5 1)
    = Ok features_qc
    ∧ extract_all_cycle_life_features "f" (Some cycling_df) (decimal 5 1)
      = Ok features_all
    ∧ features_qc ⊆ features_all.
Proof.
  pose proof (extract_qc_cycle_life_features_Some "f" cycling_df
                (decimal 5 1) ltac:(by_evaluation)) as Hqc.
  pose proof (extract_all_cycle_life_features_Some "f" cycling_df
                (decimal 5 1) ltac:(by_evaluation)) as Hall.
  exists (qc_features cycling_df (decimal 5 1)),
    (detail_features cycling_df (decimal 5 1)).
  split; [exact Hqc|]. split; [exact Hall|].
  exact (summary_row_within_detail_row "f" (Some cycling_df) (decimal 5 1)
           _ _ Hqc Hall).
Defined.
End cycle_life_sets.

(* ================================================================== *)
(** * The shape of sample IDs *)

Section sample_id_shape.
Import Str CamBiologicDataImport FileSelection Main Sample.

Lemma match_CC_digits_inv (s g : string) :
  match_CC_digits s = Some g →
  ∃ digits rest,
    g = "CC-" +:+ digits ∧ s = g +:+ rest
    ∧ ((∃ d1, digits = String d1 "" ∧ is_digit d1 = true
              ∧ starts_with_digit rest = false)
       ∨ (∃ d1 d2, digits = String d1 (String d2 "")
                   ∧ is_digit d1 = true ∧ is_digit d2 = true)).
Proof.
  destruct s as [|c1 s]; [done|].
  destruct c1 as [[] [] [] [] [] [] [] []]; try done.
  destruct s as [|c2 s]; [done|].
  destruct c2 as [[] [] [] [] [] [] [] []]; try done.
  destruct s as [|c3 s]; [done|].
  destruct c3 as [[] [] [] [] [] [] [] []]; try done.
  destruct s as [|d1 s]; [done|].
  cbn [match_CC_digits].
  destruct (is_digit d1) eqn:Hd1; [|done].
  destruct s as [|d2 s].
  - intros [= <-]. exists (String d1 ""), "". split; [done|].
    split; [done|]. left. by exists d1.
  - destruct (is_digit d2) eqn:Hd2; intros [= <-].
    + exists (String d1 (String d2 "")), s. split; [done|].
      split; [done|]. right. by exists d1, d2.
    + exists (String d1 ""), (String d2 s). split; [done|].
      split; [done|]. left. by exists d1.
Qed.

Lemma re_match_CC_inv (s : string) (g : string * string) :
  re_match_CC s = Some g →
  ∃ rest,
    s = g.1 +:+ g.2 +:+ rest
    ∧ match_CC_digits (g.2 +:+ rest) = Some g.2
    ∧ contains (String newline "") g.1 = false
    ∧ ∀ pre post, g.1 = pre +:+ post → post ≠ "" →
        match_CC_digits (post +:+ g.2 +:+ rest) = None.
Proof.
  revert g. induction s as [|c s IH]; intros g; cbn [re_match_CC].
  - destruct (match_CC_digits "") eqn:E; [done|done].
  - destruct (match_CC_digits (String c s)) as [g2|] eqn:E.
    + intros [= <-]. cbn [fst snd].
      destruct (match_CC_digits_inv _ _ E) as (digits & rest & Hg & Hs & _).
      exists rest. rewrite append_nil_l, <- Hs. split_and!; try done.
      intros pre post Hnil Hpost. destruct pre; [|done].
      rewrite append_nil_l in Hnil. by subst.
    + destruct (Ascii.eqb c newline) eqn:Hc; [done|].
      destruct (re_match_CC s) as [g'|] eqn:E'; [|done].
      intros [= <-]. cbn [fst snd].
      destruct (IH g' eq_refl) as (rest & Hs & Hm & Hnl & Hleft).
      exists rest. rewrite append_cons, <- Hs. split_and!; try done.
      * cbn [contains String.prefix]. rewrite Hnl.
        destruct (ascii_dec newline c) as [<-|?]; [|by destruct (g'.1)].
        by rewrite Ascii.eqb_refl in Hc.
      * intros pre post Heq Hpost. destruct pre as [|a pre].
        -- rewrite append_nil_l in Heq. subst post.
           by rewrite append_cons, <- Hs.
        -- rewrite append_cons in Heq. injection Heq as -> Heq.
           by apply (Hleft pre post).
Qed.
End sample_id_shape.

Section identity_shapes.
Import Str CamBiologicDataImport FileSelection Main Sample.

(** X11.  The sample ID that [process_filenames_CC] returns for a
    single file name is the beginning of that name, up to and including
    the first "CC-" that is followed by a digit: what precedes it holds
    no newline and no earlier such place, and it ends with one digit, or
    with two whenever a second digit follows. *)
Theorem sample_ID_is_leading_part (filename sample_ID : string) :
  process_filenames_CC (Single filename) = One (Some sample_ID) →
  ∃ head digits rest,
    filename = sample_ID +:+ rest
    ∧ sample_ID = head +:+ "CC-" +:+ digits
    ∧ contains (String newline "") head = false
    ∧ ((∃ d1, digits = String d1 "" ∧ is_digit d1 = true
              ∧ starts_with_digit rest = false)
       ∨ (∃ d1 d2, digits = String d1 (String d2 "")
                   ∧ is_digit d1 = true ∧ is_digit d2 = true))
    ∧ ∀ pre post, head = pre +:+ post → post ≠ "" →
        match_CC_digits (post +:+ "CC-" +:+ digits +:+ rest) = None.
Proof.
  unfold process_filenames_CC.
  destruct (re_match_CC filename) as [[g1 g2]|] eqn:E; [|done].
  intros [= <-].
  destruct (re_match_CC_inv _ _ E) as (rest & Hs & Hm & Hnl & Hleft).
  cbn [fst snd] in *.
  destruct (match_CC_digits_inv _ _ Hm) as (digits & rest' & Hg & Hs' & Hd).
  assert (rest' = rest) as -> by (by apply (String.app_inj g2)).
  exists g1, digits, rest. unfold group0. cbn [fst snd]. subst g2.
  split_and!; try done. by rewrite append_assoc.
Qed.

(** X12.  Resolving the sample ID of a file name fails only with
    [IndexError], and exactly when the primary pattern does not match
    and the name has no "-CC"; with a "-CC" anywhere in the name it
    succeeds. *)
Theorem resolve_sample_ID_outcome (filename : string) :
  match resolve_sample_ID filename with
  | Ok _ => re_match_CC filename ≠ None ∨ contains "-CC" filename = true
  | Raise e =>
      e = IndexError
      ∧ re_match_CC filename = None ∧ contains "-CC" filename = false
  | SystemExit _ => False
  end.
Proof.
  unfold resolve_sample_ID, process_filenames_CC.
  destruct (re_match_CC filename) as [g|] eqn:E; [by left|].
  destruct (contains "-CC" filename) eqn:Hc.
  - destruct (findall_first_Ok _ Hc) as [sample_ID ->]. by right.
  - by rewrite findall_first_IndexError.
Qed.
End identity_shapes.

Section second_pattern.
Import Str CamBiologicDataImport FileSelection Main Sample.

Lemma strip_prefix_inv (literal s after : string) :
  strip_prefix literal s = Some after → s = literal +:+ after.
Proof.
  revert s. induction literal as [|a literal IH]; intros s.
  - cbn. intros [= <-]. by rewrite append_nil_l.
  - destruct s as [|b s]; cbn [strip_prefix]; [done|].
    destruct (Ascii.eqb a b) eqn:E; [|done].
    apply Ascii.eqb_eq in E as ->. intros Hs. rewrite append_cons.
    f_equal. by apply IH.
Qed.

Lemma span_digits_inv (s digits rest : string) :
  span_digits s = (digits, rest) → s = digits +:+ rest.
Proof.
  revert digits rest. induction s as [|c s IH]; intros digits rest; cbn.
  - by intros [= <- <-].
  - destruct (is_digit c); [|by intros [= <- <-]].
    destruct (span_digits s) as [d r]. intros [= <- <-].
    rewrite append_cons. f_equal. by apply IH.
Qed.

Lemma literal_digits_inv (literal s g rest : string) :
  literal_digits literal s = Some (g, rest) → s = g +:+ rest.
Proof.
  unfold literal_digits.
  destruct (strip_prefix literal s) as [after|] eqn:E; [|done].
  destruct (span_digits after) as [digits r] eqn:E'.
  case_bool_decide; [done|]. intros [= <- <-].
  apply strip_prefix_inv in E as ->. apply span_digits_inv in E' as ->.
  by rewrite append_assoc.
Qed.

Lemma match_marker_inv (s g3 : string) :
  match_marker s = Some g3 →
  g3 ∈ ["Cycle-Life"; "Formation-Capacity-Check"; "Formation"]
  ∧ ∃ rest, s = "-" +:+ g3 +:+ rest.
Proof.
  unfold match_marker.
  destruct (String.prefix "-Cycle-Life" s) eqn:E1.
  { intros [= <-]. apply prefix_spec in E1 as [rest ->].
    split; [by_evaluation|]. by exists rest. }
  destruct (String.prefix "-Formation-Capacity-Check" s) eqn:E2.
  { intros [= <-]. apply prefix_spec in E2 as [rest ->].
    split; [by_evaluation|]. by exists rest. }
  destruct (String.prefix "-Formation" s) eqn:E3; [|done].
  intros [= <-]. apply prefix_spec in E3 as [rest ->].
  split; [by_evaluation|]. by exists rest.
Qed.

Lemma lazy_until_marker_inv (s : string) (g : string * string) :
  lazy_until_marker s = Some g →
  g.2 ∈ ["Cycle-Life"; "Formation-Capacity-Check"; "Formation"]
  ∧ ∃ rest, s = g.1 +:+ "-" +:+ g.2 +:+ rest.
Proof.
  revert g. induction s as [|c s IH]; intros g; cbn [lazy_until_marker].
  - destruct (match_marker "") as [g3|] eqn:E; [|done].
    intros [= <-]. by apply match_marker_inv in E.
  - destruct (match_marker (String c s)) as [g3|] eqn:E.
    + intros [= <-]. by apply match_marker_inv in E.
    + destruct (Ascii.eqb c newline); [done|].
      destruct (lazy_until_marker s) as [g'|]; [|done].
      intros [= <-]. destruct (IH g' eq_refl) as (Hin & rest & ->).
      split; [done|]. by exists rest.
Qed.

Lemma contains_intro (sub pre post : string) :
  contains sub (pre +:+ sub +:+ post) = true.
Proof. apply contains_spec. by exists pre, post. Qed.

(** X13.  What [process_filenames] returns for a single file name is
    the beginning of that name, and a name it accepts is classified
    without a question to the operator: unless the name has the OCV
    marker, [get_protocol_type] answers 'CL', 'FC' or 'F' and leaves the
    standard input as it was. *)
Theorem process_filenames_accepts_classified
    (filename sample : string) (stdin : list string) :
  process_filenames (Single filename) = One (Some sample) →
  (∃ rest, filename = sample +:+ rest)
  ∧ (contains "OCV" filename = false →
     ∃ protocol_type,
       get_protocol_type filename stdin = (Ok protocol_type, stdin)
       ∧ protocol_type ∈ ["CL"; "FC"; "F"]).
Proof.
  unfold process_filenames, re_match_protocol.
  destruct (match_sample filename) as [[g1 rest1]|] eqn:E1; [|done].
  destruct (lazy_until_marker rest1) as [[g2 g3]|] eqn:E2; [|done].
  intros [= <-]. unfold whole_match. cbn [fst snd].
  assert (filename = g1 +:+ rest1) as Hf.
  { unfold match_sample in E1.
    destruct (literal_digits "QCL-" filename) as [g|] eqn:E;
      [injection E1 as ->|]; by eapply literal_digits_inv. }
  destruct (lazy_until_marker_inv _ _ E2) as (Hg3 & rest & Hr).
  cbn [fst snd] in Hg3, Hr. subst rest1.
  split.
  - exists rest. by rewrite Hf, !append_assoc.
  - intros Hocv. unfold get_protocol_type. rewrite Hocv.
    assert (contains "Life" filename = true
            ∨ (contains "Formation-Capacity-Check" filename = true)
            ∨ (contains "Formation-Capacity-Check" filename = false
               ∧ contains "Formation" filename = true)) as Hcases.
    { rewrite Hf. rewrite !elem_of_cons, elem_of_nil in Hg3.
      destruct Hg3 as [->|[->|[->|[]]]].
      - left. apply contains_spec.
        exists (g1 +:+ g2 +:+ "-Cycle-"), rest.
        by rewrite !append_assoc.
      - right; left. apply contains_spec.
        exists (g1 +:+ g2 +:+ "-"), rest. by rewrite !append_assoc.
      - destruct (contains "Formation-Capacity-Check" _) eqn:E;
          [by right; left|right; right]. split; [done|].
        apply contains_spec.
        exists (g1 +:+ g2 +:+ "-"), rest. by rewrite !append_assoc. }
    destruct (contains "Life" filename).
    { eexists. split; [done|]. by_evaluation. }
    destruct Hcases as [?|[->|[-> ->]]]; [done|..];
      (eexists; split; [done|]; by_evaluation).
Qed.
End second_pattern.

(* ================================================================== *)
(** * Selection of the files *)

Section file_selection.
Import Str CamBiologicDataImport FileSelection Main Sample.

Lemma filter_mpr_files_loop_readable (size : string → Z) (lo hi : Z)
    (files acc : list string) :
  filter_mpr_files_loop (λ f, Ok (size f)) lo hi files acc
  = Ok (acc ++ filter (λ f, lo ≤ size f < hi) files).
Proof.
  revert acc. induction files as [|f files IH]; intros acc.
  - by rewrite filter_nil, app_nil_r.
  - cbn [filter_mpr_files_loop mbind outcome_bind]. rewrite IH, filter_cons.
    case_bool_decide.
    + rewrite decide_True by done. by rewrite <- app_assoc.
    + by rewrite decide_False by done.
Qed.

Lemma filter_ranges_Permutation (size : string → Z) (a b c : Z)
    (files : list string) :
  a ≤ b → b ≤ c →
  filter (λ f, a ≤ size f < c) files
  ≡ₚ filter (λ f, a ≤ size f < b) files ++ filter (λ f, b ≤ size f < c) files.
Proof.
  intros Hab Hbc. induction files as [|f files IH]; [done|].
  rewrite !filter_cons.
  destruct (decide (a ≤ size f < b)), (decide (b ≤ size f < c)),
    (decide (a ≤ size f < c)); try lia.
  - cbn. by rewrite IH.
  - rewrite IH. apply Permutation_middle.
  - done.
Qed.

(** X14.  With every size readable, [filter_mpr_files] keeps, in their
    order, the files whose size is in the half-open range: at least the
    lower limit times 1024, below the upper limit times 1024.  Two
    adjacent ranges therefore share no file and together give the files
    of the range they cover. *)
Theorem filter_mpr_files_adjacent_ranges
    (size : string → Z) (files : list string) (a b c : Z) :
  a ≤ b → b ≤ c →
  ∃ small large both,
    filter_mpr_files (λ f, Ok (size f)) files a b = Ok small
    ∧ filter_mpr_files (λ f, Ok (size f)) files b c = Ok large
    ∧ filter_mpr_files (λ f, Ok (size f)) files a c = Ok both
    ∧ both ≡ₚ small ++ large
    ∧ small `sublist_of` files
    ∧ (∀ f, f ∈ small ↔ f ∈ files ∧ a * 1024 ≤ size f < b * 1024)
    ∧ (∀ f, f ∈ small → f ∉ large).
Proof.
  intros Hab Hbc. unfold filter_mpr_files.
  rewrite !filter_mpr_files_loop_readable. cbn [app].
  eexists _, _, _. split_and!; try reflexivity.
  - apply filter_ranges_Permutation; lia.
  - apply sublist_filter.
  - intros f. rewrite list_elem_of_filter. tauto.
  - intros f [Hf _]%list_elem_of_filter [Hf' _]%list_elem_of_filter. lia.
Qed.

Lemma filter_mpr_files_adjacent_ranges_witness :
  ∃ small large both,
    filter_mpr_files (λ f, Ok (Z.of_nat (String.length f) * 512))
      ["a"; "bb"; "ccc"; "dddd"; "ee"] 1 2 = Ok small
    ∧ filter_mpr_files (λ f, Ok (Z.of_nat (String.length f) * 512))
        ["a"; "bb"; "ccc"; "dddd"; "ee"] 2 3 = Ok large
    ∧ filter_mpr_files (λ f, Ok (Z.of_nat (String.length f) * 512))
        ["a"; "bb"; "ccc"; "dddd"; "ee"] 1 3 = Ok both
    ∧ both ≡ₚ small ++ large
    ∧ small `sublist_of` ["a"; "bb"; "ccc"; "dddd"; "ee"]
    ∧ (∀ f, f ∈ small ↔ f ∈ ["a"; "bb"; "ccc"; "dddd"; "ee"]
                         ∧ 1 * 1024 ≤ Z.of_nat (String.length f) * 512
                                     < 2 * 1024)
    ∧ (∀ f, f ∈ small → f ∉ large).
Proof.
  apply (filter_mpr_files_adjacent_ranges
           (λ f, Z.of_nat (String.length f) * 512)
           ["a"; "bb"; "ccc"; "dddd"; "ee"] 1 2 3); lia.
Defined.

(** X15.  One file whose size cannot be read loses the whole list: the
    exception of [os.path.getsize] leaves [filter_mpr_files], whatever
    was kept before it and whatever follows. *)
Theorem filter_mpr_files_unreadable
    (getsize : string → outcome Z) (readable : list string) (file : string)
    (rest : list string) (lower_limit_kb upper_limit_kb : Z) (e : exn) :
  Forall (λ f, ∃ n, getsize f = Ok n) readable →
  getsize file = Raise e →
  filter_mpr_files getsize (readable ++ file :: rest)
    lower_limit_kb upper_limit_kb = Raise e.
Proof.
  intros Hread Hfile. unfold filter_mpr_files.
  generalize (@nil string).
  induction Hread as [|f readable [n Hn] Hread IH]; intros acc.
  - cbn [app filter_mpr_files_loop]. by rewrite Hfile.
  - cbn [app filter_mpr_files_loop]. rewrite Hn.
    cbn [mbind outcome_bind]. apply IH.
Qed.

Lemma filter_mpr_files_unreadable_witness :
  filter_mpr_files
    (λ f, if bool_decide (f = "gone") then Raise ValueError else Ok 2048)
    (["a"; "b"] ++ "gone" :: ["c"]) 1 3 = Raise ValueError.
Proof.
  apply (filter_mpr_files_unreadable
           (λ f, if bool_decide (f = "gone") then Raise ValueError
                 else Ok 2048) ["a"; "b"] "gone" ["c"] 1 3 ValueError).
  - repeat constructor; by exists 2048.
  - reflexivity.
Defined.

(** X16.  What the loop receives from the dialog: nothing selected
    raises [TypeError]; a selection without OCV file is passed as it is;
    an OCV file selected alone becomes a [None] entry, while among
    several files it is dropped. *)
Theorem selected_paths_of_dialog (mpr_files : list string) :
  (mpr_files = [] →
   selected_paths (get_file_path mpr_files) = Raise TypeError)
  ∧ (mpr_files ≠ [] →
     Forall (λ f, contains "OCV" f = false) mpr_files →
     selected_paths (get_file_path mpr_files) = Ok (Some <$> mpr_files))
  ∧ (∀ f, mpr_files = [f] → contains "OCV" f = true →
          selected_paths (get_file_path mpr_files) = Ok [None])
  ∧ ((1 < length mpr_files)%nat →
     selected_paths (get_file_path mpr_files)
     = Ok (Some <$> filter (λ f, contains "OCV" f = false) mpr_files)).
Proof.
  split_and!.
  - by intros ->.
  - intros Hne Hall. destruct mpr_files as [|f [|f' files]]; [done|..].
    + unfold get_file_path. cbn [length].
      rewrite bool_decide_eq_false_2 by lia.
      unfold selected_paths, filter_OCV_files.
      by rewrite (Forall_inv Hall).
    + unfold get_file_path. cbn [length].
      rewrite bool_decide_eq_true_2 by lia.
      unfold selected_paths, filter_OCV_files.
      cbn [mbind outcome_bind mret outcome_ret]. do 2 f_equal.
      clear Hne. induction Hall as [|x l Hx Hall IH]; [done|].
      rewrite filter_cons, decide_True by done. by rewrite IH.
  - intros f -> Hocv. unfold get_file_path. cbn [length].
    rewrite bool_decide_eq_false_2 by lia.
    unfold selected_paths, filter_OCV_files. by rewrite Hocv.
  - intros Hlen. destruct mpr_files as [|f [|f' files]];
      [cbn in Hlen; lia..|].
    unfold get_file_path. cbn [length].
    by rewrite bool_decide_eq_true_2 by lia.
Qed.
End file_selection.

(* ================================================================== *)
(** * Rows and sample IDs over a whole batch *)

Section counts.
Import Str Features CamBiologicDataImport ExtractElectrochemicalFeatures.
Import Main Report Sample.
Context `{Runtime}.

(** Resolving a sample ID never ends the run. *)
Lemma resolve_sample_ID_no_exit filename code :
  resolve_sample_ID filename ≠ SystemExit code.
Proof.
  unfold resolve_sample_ID.
  destruct (process_filenames_CC (Single filename)) as [[?|]|?]; try done.
  all: induction filename as [|a f IH]; cbn [findall_first]; [done|];
    destruct (lazy_until_CC _); [done|]; by apply IH.
Qed.

(** Without the OCV marker, neither does the classification. *)
Lemma get_protocol_type_no_exit filename stdin :
  contains "OCV" filename = false →
  ∃ r stdin', get_protocol_type filename stdin = (r, stdin')
    ∧ ∀ code, r ≠ SystemExit code.
Proof.
  intros Hocv. unfold get_protocol_type. rewrite Hocv.
  destruct (contains "Life" filename); [by eexists _, _|].
  destruct (contains "Formation-Capacity-Check" filename);
    [by eexists _, _|].
  destruct (contains "Formation" filename); [by eexists _, _|].
  destruct stdin as [|answer stdin]; by eexists _, _.
Qed.

(** One turn of the loop on a file without OCV marker: it does not end
    the run, the detail table does not shrink, and the sample IDs gain
    at least as many entries as the detail table gains rows. *)
Lemma process_file_counts path s :
  contains "OCV" (stem path) = false →
  ∃ s' r, process_file (Some path) s = (s', r)
    ∧ filename s' = Some (stem path)
    ∧ (∀ code, r ≠ SystemExit code)
    ∧ (length (cycle_life_sample_data s)
       ≤ length (cycle_life_sample_data s'))%nat
    ∧ (length (sample_ID_list s) + length (cycle_life_sample_data s')
       ≤ length (sample_ID_list s') + length (cycle_life_sample_data s))%nat.
Proof.
  intros Hocv. unfold process_file.
  unfold mbind, M_bind, modify, lift, classify. cbn [set_filename stdin].
  destruct (resolve_sample_ID (stem path)) as [sample_ID|e|c] eqn:Hid;
    [|by eexists _, _|by apply resolve_sample_ID_no_exit in Hid].
  destruct (get_protocol_type_no_exit _ (stdin s) Hocv)
    as (r & stdin' & -> & Hr).
  destruct r as [p|e|c]; [|by eexists _, _|by destruct (Hr c)].
  destruct (bool_decide (p ∈ ["F"; "FC"])).
  - destruct (extract_formation_features (stem path)
                (convert_file_to_cloud path)
                (extract_mass_from_filename (stem path)))
      as [features|e|c] eqn:Hx.
    + eexists _, _. split; [reflexivity|]. cbn. rewrite length_app. cbn.
      split_and!; try done; lia.
    + eexists _, _. split; [reflexivity|]. cbn. split_and!; try done; lia.
    + by apply extract_formation_features_no_exit in Hx.
  - destruct (bool_decide (p = "CL")).
    + destruct (convert_file_to_cloud path) as [df|] eqn:Hdf.
      * rewrite extract_qc_cycle_life_features_cases,
          extract_all_cycle_life_features_cases.
        destruct (zero_division df (extract_mass_from_filename (stem path))).
        { eexists _, _. split; [reflexivity|]. cbn.
          split_and!; try done; lia. }
        eexists _, _. split; [reflexivity|]. cbn. rewrite !length_app. cbn.
        split_and!; try done; lia.
      * eexists _, _. split; [reflexivity|]. cbn.
        split_and!; try done; lia.
    + eexists _, _. split; [reflexivity|]. cbn. rewrite length_app. cbn.
      split_and!; try done; lia.
Qed.

(** A processable cycle-life file adds a row to both tables and a
    sample ID. *)
Lemma process_file_cycle_life path s :
  processable_cycle_life path →
  ∃ s', process_file (Some path) s = (s', Ok ())
    ∧ length (cycle_life_sample_data s')
      = S (length (cycle_life_sample_data s))
    ∧ length (qc_sample_summary s') = S (length (qc_sample_summary s))
    ∧ length (sample_ID_list s') = S (length (sample_ID_list s)).
Proof.
  intros (Hocv & Hlife & [sample_ID Hid] & (df & Hdf & Hz)).
  unfold process_file.
  unfold mbind, M_bind, modify, lift, classify. cbn [set_filename stdin].
  rewrite Hid. unfold get_protocol_type. rewrite Hocv, Hlife.
  cbn [log_and_reraise].
  rewrite bool_decide_eq_false_2 by (by_evaluation).
  rewrite bool_decide_eq_true_2 by done.
  unfold convert_file_to_cloud. rewrite Hdf.
  rewrite (extract_qc_cycle_life_features_Some _ _ _ Hz),
    (extract_all_cycle_life_features_Some _ _ _ Hz).
  eexists. split; [reflexivity|]. cbn.
  rewrite !length_app. cbn. lia.
Qed.


(** A processable formation file adds a row to the summary and a sample
    ID, and leaves the detail table alone. *)
Lemma process_file_formation path s :
  processable_formation path →
  ∃ s', process_file (Some path) s = (s', Ok ())
    ∧ cycle_life_sample_data s' = cycle_life_sample_data s
    ∧ length (qc_sample_summary s') = S (length (qc_sample_summary s))
    ∧ length (sample_ID_list s') = S (length (sample_ID_list s)).
Proof.
  intros (Hocv & Hlife & Hf & [sample_ID Hid] & (df & Hdf & Hrest & Hz)).
  unfold process_file.
  unfold mbind, M_bind, modify, lift, classify. cbn [set_filename stdin].
  rewrite Hid. unfold get_protocol_type. rewrite Hocv, Hlife, Hf.
  unfold convert_file_to_cloud. rewrite Hdf.
  destruct (rest_row_iloc_last df Hrest) as [v Hv].
  pose proof (extract_formation_features_eq (stem path) df
                (extract_mass_from_filename (stem path)) v Hv Hz) as Hx.
  destruct (contains "Formation-Capacity-Check" (stem path));
    cbn [log_and_reraise];
    rewrite bool_decide_eq_true_2 by (by_evaluation);
    rewrite Hx; (eexists; split; [reflexivity|]); cbn;
    rewrite !length_app; cbn; (split_and!; [done|lia..]).
Qed.
End counts.

Section after_the_loop.
Import Str Features CamBiologicDataImport ExtractElectrochemicalFeatures.
Import FileSelection Main Report Sample.
Context `{Runtime}.

(** Without OCV names the loop runs to its end from any state; the
    detail table never has more rows than there are sample IDs beyond
    those of the start, a processable cycle-life file gives it a row,
    and a processable formation file gives the sample IDs an entry the
    detail table has no row for. *)
Lemma file_loop_counts (paths : list string) (s : state) :
  Forall (λ p, contains "OCV" (stem p) = false) paths →
  ∃ s', file_loop (Some <$> paths) s = Ok s'
    ∧ (length (cycle_life_sample_data s)
       ≤ length (cycle_life_sample_data s'))%nat
    ∧ (length (sample_ID_list s) + length (cycle_life_sample_data s')
       ≤ length (sample_ID_list s') + length (cycle_life_sample_data s))%nat
    ∧ (Exists processable_cycle_life paths →
       (length (cycle_life_sample_data s) + 1
        ≤ length (cycle_life_sample_data s'))%nat)
    ∧ (Exists processable_formation paths →
       (length (sample_ID_list s) + length (cycle_life_sample_data s') + 1
        ≤ length (sample_ID_list s')
          + length (cycle_life_sample_data s))%nat).
Proof.
  intros Hocv. revert s.
  induction Hocv as [|path paths Hpath Hocv IH]; intros s.
  { exists s. split_and!; try done; try lia.
    - by intros ?%Exists_nil.
    - by intros ?%Exists_nil. }
  destruct (process_file_counts path s Hpath)
    as (s1 & r & Hrun & Hfile & Hr & Hcl & Hids).
  rewrite fmap_cons. cbn [file_loop]. rewrite Hrun.
  assert (∃ s2, (match r with
                 | Ok _ => file_loop (Some <$> paths) s1
                 | Raise e =>
                     match filename s1 with
                     | Some f => file_loop (Some <$> paths)
                                   (logging (Error f e) s1)
                     | None => Raise NameError
                     end
                 | SystemExit c => SystemExit c
                 end) = file_loop (Some <$> paths) s2
                ∧ cycle_life_sample_data s2 = cycle_life_sample_data s1
                ∧ sample_ID_list s2 = sample_ID_list s1) as (s2 & -> & Hc2 & Hi2).
  { destruct r as [[]|e|c]; [by exists s1| |by destruct (Hr c)].
    rewrite Hfile. by eexists. }
  destruct (IH s2) as (s' & -> & Hcl' & Hids' & Hbump_cl & Hbump_f).
  rewrite Hc2, Hi2 in *.
  exists s'. split_and!; try done; try lia.
  - intros [Hgood|Htail%Hbump_cl]%Exists_cons; [|lia].
    destruct (process_file_cycle_life path s Hgood) as (s1' & Hrun' & ? & _).
    rewrite Hrun in Hrun'. injection Hrun' as <- _. lia.
  - intros [Hgood|Htail%Hbump_f]%Exists_cons; [|lia].
    destruct (process_file_formation path s Hgood)
      as (s1' & Hrun' & Hsame & _ & ?).
    rewrite Hrun in Hrun'. injection Hrun' as <- _.
    rewrite Hsame in *. lia.
Qed.

(** X17.  A batch that holds both a processable cycle-life file and a
    processable formation file, and no OCV name: the loop runs to its
    end, and then the detail table has fewer rows than there are sample
    IDs, so that [cycle_life_sample_data['Sample IDs'] = sample_ID_list]
    raises [ValueError]; no detail workbook is written for such a
    batch, whatever else it holds and whatever the operator answers. *)
Theorem mixed_batch_raises_ValueError
    (paths : list string) (answers : list string) :
  Forall (λ p, contains "OCV" (stem p) = false) paths →
  Exists processable_cycle_life paths →
  Exists processable_formation paths →
  ∃ s',
    file_loop (Some <$> paths) (initial answers) = Ok s'
    ∧ detail_table s' = Raise ValueError
    ∧ attach_sample_IDs s' = Raise ValueError.
Proof.
  intros Hocv Hcl Hf.
  destruct (file_loop_counts paths (initial answers) Hocv)
    as (s' & Hrun & _ & _ & Hbump_cl & Hbump_f).
  specialize (Hbump_cl Hcl). specialize (Hbump_f Hf). cbn in Hbump_cl, Hbump_f.
  exists s'. split; [done|].
  assert (detail_table s' = Raise ValueError) as Hdetail.
  { unfold detail_table, set_column.
    destruct (cycle_life_sample_data s') as [|row rows]; [cbn in *; lia|].
    rewrite bool_decide_eq_false_2; [done|]. cbn in *. lia. }
  split; [done|]. unfold attach_sample_IDs. rewrite Hdetail.
  unfold insert_sample_IDs, set_column.
  destruct (qc_sample_summary s'); [done|]. by case_bool_decide.
Qed.

(** X18.  From the dialog to the end of the loop the run never calls
    [sys.exit]: [filter_OCV_files] keeps every OCV name away from
    [get_protocol_type].  It ends early in two cases only: nothing was
    selected ([TypeError] in the filter), or the one selected file is an
    OCV file, for which the loop receives [None] and its handler, naming
    [filename] before any turn has bound it, raises [NameError]. *)
Theorem run_never_exits (selected : selection) (answers : list string) :
  match paths ← selected_paths selected; file_loop paths (initial answers) with
  | Ok _ => True
  | Raise e =>
      (e = TypeError ∧ selected = Cancelled)
      ∨ (e = NameError
         ∧ ∃ path, selected = OnePath path ∧ contains "OCV" path = true)
  | SystemExit _ => False
  end.
Proof.
  assert (∀ paths, Forall (λ p, contains "OCV" p = false) paths →
            Forall (λ p, contains "OCV" (stem p) = false) paths) as Hstem.
  { intros paths Hpaths. eapply Forall_impl; [exact Hpaths|].
    intros p Hp. cbn beta.
    destruct (contains "OCV" (stem p)) eqn:E; [|done].
    apply contains_stem in E. congruence. }
  destruct selected as [|path|paths];
    cbn [selected_paths filter_OCV_files mbind outcome_bind mret outcome_ret].
  - by left.
  - destruct (contains "OCV" path) eqn:E.
    + right. split; [done|]. by exists path.
    + destruct (file_loop_counts [path] (initial answers))
        as (s' & Hrun & _); [by apply Hstem; constructor|].
      cbn [fmap list_fmap] in Hrun. by rewrite Hrun.
  - destruct (file_loop_counts
                (filter (λ p, contains "OCV" p = false) paths)
                (initial answers)) as (s' & -> & _); [|done].
    apply Hstem, Forall_forall. by intros p [? _]%list_elem_of_filter.
Qed.

(** X19.  A file the reader cannot convert: [convert_file_to_cloud]
    returns [None], the extraction subscripts it and raises [TypeError],
    and the loop goes on with the next file, having logged the error
    and added neither a row nor a sample ID. *)
Theorem reader_failure_is_skipped
    (path : string) (rest : list (option string)) (s : state)
    (sample_ID : string) :
  contains "OCV" (stem path) = false →
  contains "Life" (stem path) = true ∨ contains "Formation" (stem path) = true →
  resolve_sample_ID (stem path) = Ok sample_ID →
  biologic_reader path = None →
  file_loop (Some path :: rest) s
  = file_loop rest
      (logging (Error (stem path) TypeError) (set_filename (stem path) s)).
Proof.
  intros Hocv Hmark Hid Hread. cbn [file_loop]. unfold process_file.
  unfold mbind, M_bind, modify, lift, classify. cbn [set_filename stdin].
  rewrite Hid. unfold get_protocol_type, convert_file_to_cloud.
  rewrite Hocv, Hread.
  destruct (contains "Life" (stem path)); [by destruct s|].
  destruct (contains "Formation-Capacity-Check" (stem path));
    [by destruct s|].
  destruct Hmark as [?|Hformation]; [done|]. rewrite Hformation.
  by destruct s.
Qed.

(** X20.  A file name in which neither pattern finds a sample ID: the
    turn raises [IndexError] before the name is classified, so the
    operator is not asked anything, and the file is skipped; this holds
    for a name with the OCV marker too, which therefore does not end
    the run. *)
Theorem unresolved_sample_ID_is_skipped
    (path : string) (rest : list (option string)) (s : state) :
  re_match_CC (stem path) = None →
  contains "-CC" (stem path) = false →
  file_loop (Some path :: rest) s
  = file_loop rest
      (logging (Error (stem path) IndexError) (set_filename (stem path) s)).
Proof.
  intros Hprimary Hcc. cbn [file_loop]. unfold process_file.
  unfold mbind, M_bind, modify, lift. 
  rewrite resolve_sample_ID_fallback, findall_first_IndexError by done.
  by destruct s.
Qed.

(** X23.  A file whose name gives the mass 0 and whose table has no
    CHARGE row or no DISCHARGE row in cycle 1: the division of the
    missing capacity by the mass raises [ZeroDivisionError], the handler
    logs it, and the loop goes on with the next file, having added
    neither a row nor a sample ID. *)
Theorem zero_mass_file_is_skipped
    (path : string) (rest : list (option string)) (s : state)
    (sample_ID : string) (df : DataFrame) :
  contains "OCV" (stem path) = false →
  contains "Life" (stem path) = true
  ∨ (contains "Formation" (stem path) = true
     ∧ Exists (λ r, step_type r = "REST" ∧ step_number r = 0) df) →
  resolve_sample_ID (stem path) = Ok sample_ID →
  biologic_reader path = Some df →
  zero (extract_mass_from_filename (stem path)) = true →
  first_cycle "CHARGE" df = [] ∨ first_cycle "DISCHARGE" df = [] →
  file_loop (Some path :: rest) s
  = file_loop rest
      (logging (Error (stem path) ZeroDivisionError)
         (set_filename (stem path) s)).
Proof.
  intros Hocv Hmark Hid Hread Hmass Hempty.
  assert (zero_division df (extract_mass_from_filename (stem path)) = true)
    as Hz.
  { unfold zero_division. rewrite Hmass.
    by destruct Hempty as [-> | ->]; rewrite ?orb_true_r. }
  cbn [file_loop]. unfold process_file.
  unfold mbind, M_bind, modify, lift, classify. cbn [set_filename stdin].
  rewrite Hid. unfold get_protocol_type, convert_file_to_cloud.
  rewrite Hocv, Hread.
  destruct (contains "Life" (stem path)).
  { cbn [log_and_reraise].
    rewrite bool_decide_eq_false_2 by (by_evaluation).
    rewrite bool_decide_eq_true_2 by done.
    rewrite extract_qc_cycle_life_features_cases, Hz. by destruct s. }
  destruct Hmark as [?|[Hformation Hrest]]; [done|]. rewrite Hformation.
  destruct (rest_row_iloc_last df Hrest) as [v Hv].
  destruct (contains "Formation-Capacity-Check" (stem path));
    cbn [log_and_reraise];
    rewrite bool_decide_eq_true_2 by (by_evaluation);
    rewrite extract_formation_features_cases, Hv;
    cbn [mbind outcome_bind]; rewrite Hz; by destruct s.
Qed.

(** X21.  With recognised protocol codes only and no OCV name, the
    column of sample IDs goes onto the summary, [insert] does not raise,
    and in the table it gives every row stands beside the sample ID of
    the file the row was extracted from, in the order of the batch;
    the files that are missing from it are those the handler of the
    loop skipped, one record of line 96 each. *)
Theorem lockstep_batch_summary_table
    (paths : list string) (answers : list string) :
  Forall (λ p, contains "OCV" (stem p) = false) paths →
  Forall recognised answers →
  ∃ s' (processed : list (string * string)) table,
    file_loop (Some <$> paths) (initial answers) = Ok s'
    ∧ insert_sample_IDs s' = Ok table
    ∧ processed.*1 `sublist_of` paths
    ∧ Forall2 (λ d t, resolve_sample_ID (stem d.1) = Ok t.1
                      ∧ recognised d.2
                      ∧ summary_row d.1 d.2 = Ok t.2) processed table
    ∧ (length table + length (skipped s') = length paths)%nat.
Proof.
  intros Hocv Hin.
  destruct (file_loop_lockstep paths (initial answers) Hocv Hin)
    as (s' & processed & rows & ids & Hrun & Hsub & Hqc & Hids
        & Hfi & Hfr & Hlen).
  cbn in Hqc, Hids, Hlen.
  pose proof (Forall2_length _ _ _ Hfi) as Hli.
  pose proof (Forall2_length _ _ _ Hfr) as Hlr.
  exists s', processed, (zip ids rows). split_and!; try done.
  - unfold insert_sample_IDs. rewrite Hqc, Hids.
    apply set_column_lockstep. congruence.
  - clear -Hfi Hfr. revert rows Hfr.
    induction Hfi as [|d id processed ids Hd Hfi IH]; intros rows Hfr.
    + inversion_clear Hfr. constructor.
    + inversion_clear Hfr as [|?? ? rows' [??] Hfr'].
      cbn [zip zip_with]. constructor; [done|]. by apply IH.
  - rewrite length_zip. lia.
Qed.

(** X22.  A batch of one file without protocol marker, for which the
    operator's answer is none of the three codes: no branch of the loop
    body extracts anything and the handler of the loop skips nothing,
    yet the sample ID is kept, and both tables, still without a row,
    take their rows from the column of sample IDs: the summary table
    holds the sample ID and no feature. *)
Theorem unrecognised_answer_exports_bare_ID
    (path : string) (answer : string) (answers : list string)
    (sample_ID : string) :
  contains "OCV" (stem path) = false →
  contains "Life" (stem path) = false →
  contains "Formation-Capacity-Check" (stem path) = false →
  contains "Formation" (stem path) = false →
  resolve_sample_ID (stem path) = Ok sample_ID →
  ¬ recognised answer →
  ∃ s', file_loop [Some path] (initial (answer :: answers)) = Ok s'
    ∧ skipped s' = []
    ∧ insert_sample_IDs s' = Ok [(sample_ID, ∅)]
    ∧ attach_sample_IDs s' = Ok ([(sample_ID, ∅)], [(sample_ID, ∅)]).
Proof.
  intros Hocv Hlife Hfc Hf Hid Hbad.
  destruct (unrecognised_answer_appends_ID_only path
              (initial (answer :: answers)) answer answers sample_ID)
    as (s' & Hrun & Hqc & Hcl & Hids & Hlog); try done.
  exists s'. cbn [file_loop]. rewrite Hrun. cbn in Hqc, Hcl, Hids, Hlog.
  split; [done|].
  assert (insert_sample_IDs s' = Ok [(sample_ID, ∅)]) as Hsummary
    by (unfold insert_sample_IDs; by rewrite Hqc, Hids).
  split_and!; [|done|].
  - unfold skipped. by rewrite Hlog.
  - unfold attach_sample_IDs, detail_table. by rewrite Hsummary, Hcl, Hids.
Qed.
End after_the_loop.

Section loop_samples.
Import Str Features CamBiologicDataImport ExtractElectrochemicalFeatures.
Import FileSelection Main Report Sample.


Lemma mixed_batch_raises_ValueError_witness :
  ∃ s',
    @file_loop runtime
      (Some <$> ["/data/QCL-1-CC-01_0.5_Formation.mpr";
                 "/data/QCL-1-CC-02_0.5_Cycle-Life.mpr"])
      (initial []) = Ok s'
    ∧ detail_table s' = Raise ValueError
    ∧ attach_sample_IDs s' = Raise ValueError.
Proof.
  apply (@mixed_batch_raises_ValueError runtime
           ["/data/QCL-1-CC-01_0.5_Formation.mpr";
            "/data/QCL-1-CC-02_0.5_Cycle-Life.mpr"] []).
  - repeat constructor.
  - apply Exists_cons_tl, Exists_cons_hd.
    split_and!; [vm_compute; reflexivity..| |].
    + exists "QCL-1-CC-02". vm_compute. reflexivity.
    + exists cycling_df. split; vm_compute; reflexivity.
  - apply Exists_cons_hd.
    split_and!; [vm_compute; reflexivity..| |].
    + exists "QCL-1-CC-01". vm_compute. reflexivity.
    + exists formation_df. split; [vm_compute; reflexivity|]. split.
      * apply Exists_cons_hd. split; reflexivity.
      * vm_compute. reflexivity.
Defined.

Lemma reader_failure_is_skipped_witness :
  @file_loop unreadable
    [Some "/data/QCL-1-CC-01_0.5_Formation.mpr"; Some "/data/notes.mpr"]
    (initial [])
  = @file_loop unreadable [Some "/data/notes.mpr"]
      (logging (Error "QCL-1-CC-01_0.5_Formation" TypeError)
         (set_filename "QCL-1-CC-01_0.5_Formation" (initial []))).
Proof.
  apply (@reader_failure_is_skipped unreadable
           "/data/QCL-1-CC-01_0.5_Formation.mpr" [Some "/data/notes.mpr"]
           (initial []) "QCL-1-CC-01").
  - vm_compute. reflexivity.
  - right. vm_compute. reflexivity.
  - vm_compute. reflexivity.
  - reflexivity.
Defined.

Lemma zero_mass_file_is_skipped_witness :
  @file_loop late_start
    [Some "/data/QCL-1-CC-01_0_Cycle-Life.mpr"; Some "/data/notes.mpr"]
    (initial [])
  = @file_loop late_start [Some "/data/notes.mpr"]
      (logging (Error "QCL-1-CC-01_0_Cycle-Life" ZeroDivisionError)
         (set_filename "QCL-1-CC-01_0_Cycle-Life" (initial []))).
Proof.
  apply (@zero_mass_file_is_skipped late_start
           "/data/QCL-1-CC-01_0_Cycle-Life.mpr" [Some "/data/notes.mpr"]
           (initial []) "QCL-1-CC-01"
           [ Row "REST" 0 2 (decimal 41 1) (of_Z 0);
             Row "DISCHARGE" 2 2 (decimal 30 1) (of_Z 10) ]).
  - vm_compute. reflexivity.
  - left. vm_compute. reflexivity.
  - vm_compute. reflexivity.
  - reflexivity.
  - vm_compute. reflexivity.
  - left. reflexivity.
Defined.

Lemma unresolved_sample_ID_is_skipped_witness :
  @file_loop runtime
    [Some "/data/notes_OCV.mpr"; Some "/data/QCL-1-CC-02_0.5_Cycle-Life.mpr"]
    (initial [])
  = @file_loop runtime [Some "/data/QCL-1-CC-02_0.5_Cycle-Life.mpr"]
      (logging (Error "notes_OCV" IndexError)
         (set_filename "notes_OCV" (initial []))).
Proof.
  apply (@unresolved_sample_ID_is_skipped runtime "/data/notes_OCV.mpr"
           [Some "/data/QCL-1-CC-02_0.5_Cycle-Life.mpr"] (initial []));
    vm_compute; reflexivity.
Defined.

Lemma lockstep_batch_summary_table_witness :
  ∃ s' (processed : list (string * string)) table,
    @file_loop runtime
      (Some <$> ["/data/QCL-1-CC-01_0.5_Formation.mpr"; "/data/notes.mpr";
                 "/data/QCL-1-CC-03_0.5_Rest.mpr"])
      (initial ["FC"]) = Ok s'
    ∧ insert_sample_IDs s' = Ok table
    ∧ processed.*1 `sublist_of`
        ["/data/QCL-1-CC-01_0.5_Formation.mpr"; "/data/notes.mpr";
         "/data/QCL-1-CC-03_0.5_Rest.mpr"]
    ∧ Forall2 (λ d t, resolve_sample_ID (stem d.1) = Ok t.1
                      ∧ recognised d.2
                      ∧ @summary_row runtime d.1 d.2 = Ok t.2)
        processed table
    ∧ (length table + length (skipped s') = 3)%nat.
Proof.
  apply (@lockstep_batch_summary_table runtime
           ["/data/QCL-1-CC-01_0.5_Formation.mpr"; "/data/notes.mpr";
            "/data/QCL-1-CC-03_0.5_Rest.mpr"] ["FC"]).
  - repeat constructor.
  - repeat constructor.
Defined.

Lemma unrecognised_answer_exports_bare_ID_witness :
  ∃ s',
    @file_loop runtime [Some "/data/QCL-7-CC-01_0.5_Rest.mpr"]
      (initial ["X"; "F"]) = Ok s'
    ∧ skipped s' = []
    ∧ insert_sample_IDs s' = Ok [("QCL-7-CC-01", ∅)]
    ∧ attach_sample_IDs s'
      = Ok ([("QCL-7-CC-01", ∅)], [("QCL-7-CC-01", ∅)]).
Proof.
  apply (@unrecognised_answer_exports_bare_ID runtime
           "/data/QCL-7-CC-01_0.5_Rest.mpr" "X" ["F"] "QCL-7-CC-01");
    try (vm_compute; reflexivity).
  unfold recognised. by_evaluation.
Defined.

Lemma sample_ID_is_leading_part_witness :
  ∃ head digits rest,
    "QCL-7-CC-01_0.5_Rest" = "QCL-7-CC-01" +:+ rest
    ∧ "QCL-7-CC-01" = head +:+ "CC-" +:+ digits
    ∧ contains (String newline "") head = false
    ∧ ((∃ d1, digits = String d1 "" ∧ is_digit d1 = true
              ∧ starts_with_digit rest = false)
       ∨ (∃ d1 d2, digits = String d1 (String d2 "")
                   ∧ is_digit d1 = true ∧ is_digit d2 = true))
    ∧ ∀ pre post, head = pre +:+ post → post ≠ "" →
        match_CC_digits (post +:+ "CC-" +:+ digits +:+ rest) = None.
Proof.
  apply (sample_ID_is_leading_part "QCL-7-CC-01_0.5_Rest" "QCL-7-CC-01").
  vm_compute. reflexivity.
Defined.

Lemma process_filenames_accepts_classified_witness :
  (∃ rest, "QCL-12_0.5-Cycle-Life_run2" = "QCL-12_0.5-Cycle-Life" +:+ rest)
  ∧ (contains "OCV" "QCL-12_0.5-Cycle-Life_run2" = false →
     ∃ protocol_type,
       get_protocol_type "QCL-12_0.5-Cycle-Life_run2" ["F"]
       = (Ok protocol_type, ["F"])
       ∧ protocol_type ∈ ["CL"; "FC"; "F"]).
Proof.
  apply (process_filenames_accepts_classified
           "QCL-12_0.5-Cycle-Life_run2" "QCL-12_0.5-Cycle-Life" ["F"]).
  vm_compute. reflexivity.
Defined.
End loop_samples.
